(** * RAG pipeline with POML: prompt renderer and document ingestion

    A shallow embedding of
      - [chatbot/prompt_renderer.py]       (module [PromptRenderer])
      - [rag_ingestion/ingest_documents.py] (module [Ingest])
    together with the Python built-ins the two files rely on (module [Py]).

    Python [str] values are sequences of Unicode code points; the template
    engine, the PDF reader, the text splitter and the vector store are
    collaborators outside the repository and appear as section variables. *)

From Stdlib Require Import ZArith List String Ascii Bool Lia.
From stdpp Require Import base option list gmap.

Local Open Scope Z_scope.

(** ** Python built-ins *)
Module Py.

(** A [str] is a sequence of code points. *)
Definition pystr : Type := list Z.

(** ASCII literals of the source text. *)
Fixpoint lit (s : string) : pystr :=
  match s with
  | EmptyString => []
  | String a r => Z.of_N (N_of_ascii a) :: lit r
  end.

Definition nl : pystr := [10].
Definition quote : Z := 39.

(** [s * n] for a one-character string. *)
Definition str_mul (c : Z) (n : nat) : pystr := repeat c n.

(** *** Decimal formatting: [str(n)], [f"{n}"] and [f"{n:04d}"] for [n >= 0] *)

Definition digit (d : N) : Z := 48 + Z.of_N d.

Fixpoint digits_go (fuel : nat) (n : N) (acc : pystr) : pystr :=
  match fuel with
  | O => acc
  | S fuel' =>
      let acc' := digit (n mod 10) :: acc in
      if (n / 10 =? 0)%N then acc' else digits_go fuel' (n / 10)%N acc'
  end.

(** The binary size of [n] bounds its number of decimal digits, so the
    recursion below never stops early (see [dec_value_str_of_N]). *)
Definition str_of_N (n : N) : pystr :=
  digits_go (S (N.size_nat n)) n [].

Definition str_of_nat (n : nat) : pystr := str_of_N (N.of_nat n).

(** Left padding with zeros up to [width]: the [0<width>d] format spec. *)
Definition zfill (width : nat) (s : pystr) : pystr :=
  repeat 48 (width - length s)%nat ++ s.

Definition format_04d (n : nat) : pystr := zfill 4 (str_of_nat n).

(** Reading a decimal numeral back; used to show formatting is injective. *)
Definition dec_value (s : pystr) : Z :=
  fold_left (fun a d => 10 * a + (d - 48)) s 0.

(** *** Truthiness and values stored in dictionaries *)

#[warnings="-register-all"]
Inductive PyVal : Type :=
| VNone
| VBool (b : bool)
| VInt (z : Z)
| VStr (s : pystr)
| VList (l : list PyVal).

Definition truthy (v : PyVal) : bool :=
  match v with
  | VNone => false
  | VBool b => b
  | VInt z => negb (z =? 0)
  | VStr s => negb (Nat.eqb (length s) 0)
  | VList l => negb (Nat.eqb (length l) 0)
  end.

(** [a or b]: the first operand if it is truthy, else the second. *)
Definition py_or (a b : PyVal) : PyVal := if truthy a then a else b.

(** *** [repr] of a list of strings

    [repr] of a [str] made of letters, digits and underscores is the string
    between single quotes; the dictionary keys printed by the renderer are
    of that shape (see [keys_are_plain]). *)
Definition is_plain (c : Z) : bool :=
  ((48 <=? c) && (c <=? 57)) || ((65 <=? c) && (c <=? 90))
  || ((97 <=? c) && (c <=? 122)) || (c =? 95).

Definition repr_str (s : pystr) : pystr := quote :: s ++ [quote].

Fixpoint join (sep : pystr) (l : list pystr) : pystr :=
  match l with
  | [] => []
  | [x] => x
  | x :: r => x ++ sep ++ join sep r
  end.

Definition repr_str_list (l : list pystr) : pystr :=
  lit "[" ++ join (lit ", ") (map repr_str l) ++ lit "]".

(** *** Whitespace and [str.strip()] *)

Definition is_space (c : Z) : bool :=
  ((9 <=? c) && (c <=? 13)) || ((28 <=? c) && (c <=? 32))
  || (c =? 133) || (c =? 160) || (c =? 5760)
  || ((8192 <=? c) && (c <=? 8202))
  || (c =? 8232) || (c =? 8233) || (c =? 8239) || (c =? 8287) || (c =? 12288).

Fixpoint lstrip (s : pystr) : pystr :=
  match s with
  | [] => []
  | c :: r => if is_space c then lstrip r else s
  end.

Definition rstrip (s : pystr) : pystr := rev (lstrip (rev s)).
Definition strip (s : pystr) : pystr := rstrip (lstrip s).

(** *** UTF-8 (RFC 3629): [str.encode("utf-8", errors="ignore")] and
    [bytes.decode("utf-8")] *)

Definition is_surrogate (c : Z) : bool := (55296 <=? c) && (c <=? 57343).

(** Code points that have a UTF-8 encoding: the Unicode scalar values. *)
Definition encodable (c : Z) : bool :=
  (0 <=? c) && (c <=? 1114111) && negb (is_surrogate c).

Definition encode_cp (c : Z) : option (list Z) :=
  if negb (encodable c) then None
  else if c <? 128 then Some [c]
  else if c <? 2048 then Some [192 + c / 64; 128 + c mod 64]
  else if c <? 65536 then
    Some [224 + c / 4096; 128 + (c / 64) mod 64; 128 + c mod 64]
  else
    Some [240 + c / 262144; 128 + (c / 4096) mod 64;
          128 + (c / 64) mod 64; 128 + c mod 64].

(** With [errors="ignore"] a code point without an encoding is skipped. *)
Fixpoint encode_utf8_ignore (s : pystr) : list Z :=
  match s with
  | [] => []
  | c :: r =>
      match encode_cp c with
      | Some bs => bs ++ encode_utf8_ignore r
      | None => encode_utf8_ignore r
      end
  end.

Definition is_cont (b : Z) : bool := (128 <=? b) && (b <=? 191).

(** Strict decoding: [None] stands for [UnicodeDecodeError]. *)
Fixpoint decode_utf8 (bs : list Z) : option pystr :=
  match bs with
  | [] => Some []
  | b0 :: r =>
      if (0 <=? b0) && (b0 <? 128) then
        match decode_utf8 r with Some t => Some (b0 :: t) | None => None end
      else if (194 <=? b0) && (b0 <=? 223) then
        match r with
        | b1 :: r1 =>
            if is_cont b1 then
              match decode_utf8 r1 with
              | Some t => Some ((b0 - 192) * 64 + (b1 - 128) :: t)
              | None => None
              end
            else None
        | _ => None
        end
      else if (224 <=? b0) && (b0 <=? 239) then
        match r with
        | b1 :: b2 :: r2 =>
            let c := (b0 - 224) * 4096 + (b1 - 128) * 64 + (b2 - 128) in
            if is_cont b1 && is_cont b2 && (2048 <=? c) && negb (is_surrogate c)
            then
              match decode_utf8 r2 with
              | Some t => Some (c :: t)
              | None => None
              end
            else None
        | _ => None
        end
      else if (240 <=? b0) && (b0 <=? 244) then
        match r with
        | b1 :: b2 :: b3 :: r3 =>
            let c := (b0 - 240) * 262144 + (b1 - 128) * 4096
                     + (b2 - 128) * 64 + (b3 - 128) in
            if is_cont b1 && is_cont b2 && is_cont b3
               && (65536 <=? c) && (c <=? 1114111)
            then
              match decode_utf8 r3 with
              | Some t => Some (c :: t)
              | None => None
              end
            else None
        | _ => None
        end
      else None
  end.

(** *** Paths: [pathlib]'s [/] on plain names, for a directory given by an
    absolute path other than the root, and [os.path.basename] *)

Definition slash : Z := 47.

Definition path_join (dir name : pystr) : pystr := dir ++ slash :: name.

(** The part after the last ['/'] (the whole string when there is none). *)
Fixpoint basename_go (s acc : pystr) : pystr :=
  match s with
  | [] => rev acc
  | c :: r => if c =? slash then basename_go r [] else basename_go r (c :: acc)
  end.

Definition basename (p : pystr) : pystr := basename_go p [].

(** *** Exceptions and results

    [Foreign e] is an exception raised inside a collaborator (template
    engine, PDF reader, vector store) that the repository code lets through. *)
Inductive exn (E : Type) : Type :=
| ValueError (msg : pystr)
| IndexError
| UnicodeDecodeError
| Foreign (e : E).

Inductive result (E A : Type) : Type :=
| Ok (a : A)
| Raise (e : exn E).

Arguments ValueError {E} msg.
Arguments IndexError {E}.
Arguments UnicodeDecodeError {E}.
Arguments Foreign {E} e.
Arguments Ok {E A} a.
Arguments Raise {E A} e.

End Py.

(** ** chatbot/prompt_renderer.py *)
Module PromptRenderer.
Import Py.

(** One entry of [responses_list]: the dictionary with keys ["label"] and
    ["response"]. *)
Record LabelledResponse : Type :=
  { label : PyVal; response : PyVal }.

(** The [context=] dictionaries handed to the template engine. *)
Inductive Context : Type :=
| RoutingContext (question : pystr)
| AnswerContext (technique question context language
                 conversation_context : pystr)
| JudgeContext (question comparison_type : pystr)
               (responses_list : list LabelledResponse).

(** What [poml(..., chat=True, format="langchain")] returns:
    [{"messages": [{"type": ..., "data": {"content": ...}}, ...]}]. *)
Record Message : Type := { msg_type : pystr; content : pystr }.
Record Rendered : Type := { messages : list Message }.

(** [item.get(key)] and [item.get(key, default)]. *)
Definition dict_get (item : gmap pystr PyVal) (key : pystr) : PyVal :=
  default VNone (item !! key).
Definition dict_get_default (item : gmap pystr PyVal) (key : pystr)
    (dflt : PyVal) : PyVal :=
  default dflt (item !! key).

(** The dictionary literal bound to [ANSWER_TECHNIQUES] at import time. *)
Definition ANSWER_TECHNIQUES_literal : list (pystr * pystr) :=
  [ (lit "zero_shot", lit "Zero-Shot");
    (lit "few_shot", lit "Few-Shot");
    (lit "cot", lit "Chain of Thought");
    (lit "advanced", lit "Constrained-Guided Generation") ].

(** [key in d] and [list(d.keys())] for an insertion-ordered dictionary. *)
Definition dict_keys {V} (d : list (pystr * V)) : list pystr := map fst d.
Definition dict_contains {V} (d : list (pystr * V)) (k : pystr) : bool :=
  bool_decide (k ∈ dict_keys d).

Section Renderer.
(** [Env] is whatever the template engine reads (the template files);
    [E] its exceptions. *)
Context {Env E : Type}.
(** [Path(__file__).parent] *)
Variable module_dir : pystr.
(** [inl x]: the engine raised [x]; [inr r]: it returned [r]. *)
Variable poml : pystr -> Context -> Env -> (E + Rendered) * Env.

Definition ROUTING_POML : pystr :=
  path_join (path_join module_dir (lit "prompts")) (lit "route.poml").
Definition ANSWER_POML : pystr :=
  path_join (path_join module_dir (lit "prompts")) (lit "answer.poml").
Definition JUDGE_POML : pystr :=
  path_join (path_join module_dir (lit "prompts")) (lit "judge.poml").

(** Module state: the global dictionary, the outside world, and the
    template renders requested so far (oldest first). *)
Record World : Type :=
  { ANSWER_TECHNIQUES : list (pystr * pystr);
    env : Env;
    renders : list (pystr * Context) }.

Definition init (e : Env) : World :=
  {| ANSWER_TECHNIQUES := ANSWER_TECHNIQUES_literal;
     env := e; renders := [] |}.

Definition M (A : Type) : Type := World -> result E A * World.

Definition ret {A} (a : A) : M A := fun w => (Ok a, w).
Definition raise {A} (e : exn E) : M A := fun w => (Raise e, w).
Definition bind {A B} (m : M A) (k : A -> M B) : M B :=
  fun w => match m w with
           | (Ok a, w') => k a w'
           | (Raise e, w') => (Raise e, w')
           end.

(** A call of [poml(str(path), chat=True, format="langchain", context=ctx)]. *)
Definition call_poml (path : pystr) (ctx : Context) : M Rendered :=
  fun w =>
    let '(r, e') := poml path ctx (env w) in
    (match r with inl x => Raise (Foreign x) | inr v => Ok v end,
     {| ANSWER_TECHNIQUES := ANSWER_TECHNIQUES w;
           env := e';
           renders := renders w ++ [(path, ctx)] |}).

(** [poml_rendered["messages"][0]["data"]["content"]] *)
Definition first_content (poml_rendered : Rendered) : M pystr :=
  match messages poml_rendered with
  | m :: _ => ret (content m)
  | [] => raise IndexError
  end.

Definition render_routing_prompt (question : pystr) : M pystr :=
  bind (call_poml ROUTING_POML (RoutingContext question)) first_content.

Definition invalid_technique_message (technique : pystr)
    (techniques : list (pystr * pystr)) : pystr :=
  lit "Invalid technique: " ++ technique ++ lit ". Must be one of "
      ++ repr_str_list (dict_keys techniques).

Definition render_answer_prompt (technique question context language
    conversation_context : pystr) : M pystr :=
  fun w =>
    if negb (dict_contains (ANSWER_TECHNIQUES w) technique) then
      raise (ValueError
               (invalid_technique_message technique (ANSWER_TECHNIQUES w))) w
    else
      bind (call_poml ANSWER_POML
              (AnswerContext technique question context language
                             conversation_context))
           first_content w.

(** The dictionary appended for [item] at position [idx]. *)
Definition judge_entry (idx : nat) (item : gmap pystr PyVal)
    : LabelledResponse :=
  let lbl :=
    py_or (dict_get item (lit "model_name"))
          (py_or (dict_get item (lit "technique_name"))
                 (VStr (lit "Item " ++ str_of_nat idx))) in
  {| label := lbl;
     response := dict_get_default item (lit "response") (VStr []) |}.

(** The [for idx, item in enumerate(responses, 1)] loop; [responses_list]
    is the list being appended to. *)
Fixpoint judge_loop (idx : nat) (responses : list (gmap pystr PyVal))
    (responses_list : list LabelledResponse) : list LabelledResponse :=
  match responses with
  | [] => responses_list
  | item :: rest =>
      judge_loop (S idx) rest (responses_list ++ [judge_entry idx item])
  end.

Definition build_responses_list (responses : list (gmap pystr PyVal))
    : list LabelledResponse :=
  judge_loop 1 responses [].

Definition render_judge_prompt (question : pystr)
    (responses : list (gmap pystr PyVal)) (comparison_type : pystr)
    : M pystr :=
  bind (call_poml JUDGE_POML
          (JudgeContext question comparison_type
                        (build_responses_list responses)))
       first_content.

Definition get_answer_techniques : M (list (pystr * pystr)) :=
  fun w => (Ok (ANSWER_TECHNIQUES w), w).

(** A client of the module: any sequence of calls of its four functions,
    each exception being caught by the client. *)
Inductive Call : Type :=
| CallRouting (question : pystr)
| CallAnswer (technique question context language
              conversation_context : pystr)
| CallJudge (question : pystr) (responses : list (gmap pystr PyVal))
            (comparison_type : pystr)
| CallGetTechniques.

Definition exec (c : Call) (w : World) : World :=
  match c with
  | CallRouting q => snd (render_routing_prompt q w)
  | CallAnswer t q c l cc => snd (render_answer_prompt t q c l cc w)
  | CallJudge q rs ct => snd (render_judge_prompt q rs ct w)
  | CallGetTechniques => snd (get_answer_techniques w)
  end.

Definition exec_all (cs : list Call) (w : World) : World :=
  fold_left (fun w c => exec c w) cs w.

End Renderer.

Arguments World : clear implicits.
Arguments Call : clear implicits.

End PromptRenderer.

(** ** rag_ingestion/ingest_documents.py *)
Module Ingest.
Import Py.

(** Collection metadata: [{"description": ..., "created": ...}]. *)
Record CollectionMeta : Type :=
  { description : pystr; created : pystr }.

(** Per-chunk metadata: [{"source": ..., "chunk_index": ...}]. *)
Record ChunkMeta : Type :=
  { source : pystr; chunk_index : nat }.

(** What the script does to the outside, in order. The vector store is only
    ever asked to get-or-create a collection and to add a batch to it. *)
Inductive Event : Type :=
| Print (line : pystr)
| ReadPdf (pdf_path : pystr)
| SplitText (text : pystr)
| GetOrCreateCollection (name embedding_model : pystr)
                        (metadata : CollectionMeta)
| CollectionAdd (name : pystr) (documents ids : list pystr)
                (metadatas : list ChunkMeta).

Definition is_print (e : Event) : bool :=
  match e with Print _ => true | _ => false end.

(** The collection an event works on, if it is a store operation. *)
Definition event_collection (e : Event) : option pystr :=
  match e with
  | GetOrCreateCollection name _ _ => Some name
  | CollectionAdd name _ _ _ => Some name
  | _ => None
  end.

Definition PDF_COLLECTION_MAP : list (pystr * pystr) :=
  [ (lit "Python.pdf", lit "python_book");
    (lit "Java.pdf", lit "java_book");
    (lit "Javascript.pdf", lit "javascript_book") ].

Definition embedding_model_name : pystr := lit "all-MiniLM-L6-v2".

(** [f"{collection_name}_chunk_{i:04d}"] *)
Definition chunk_id (collection_name : pystr) (i : nat) : pystr :=
  collection_name ++ lit "_chunk_" ++ format_04d i.

(** [[f"..." for i in range(len(chunks))]] *)
Definition make_ids (collection_name : pystr) (chunks : list pystr)
    : list pystr :=
  chunk_id collection_name <$> seq 0 (length chunks).

(** [[{"source": os.path.basename(pdf_path), "chunk_index": i}
      for i in range(len(chunks))]] *)
Definition make_metadatas (pdf_path : pystr) (chunks : list pystr)
    : list ChunkMeta :=
  (fun i => {| source := basename pdf_path; chunk_index := i |})
    <$> seq 0 (length chunks).

(** [page_text.encode("utf-8", errors="ignore").decode("utf-8")] *)
Definition clean_text {E} (page_text : pystr) : result E pystr :=
  match decode_utf8 (encode_utf8_ignore page_text) with
  | Some t => Ok t
  | None => Raise UnicodeDecodeError
  end.

(** [f"\n--- Page {page_num + 1} ---\n"] *)
Definition page_marker (page_num : nat) : pystr :=
  nl ++ lit "--- Page " ++ str_of_nat (page_num + 1) ++ lit " ---" ++ nl.

(** The [for page_num, page in enumerate(reader.pages)] loop; a page is
    represented by what its [extract_text()] returns. *)
Fixpoint extract_loop {E} (page_num : nat) (pages : list pystr)
    (text : pystr) : result E pystr :=
  match pages with
  | [] => Ok text
  | page_text :: rest =>
      if truthy (VStr page_text) then
        match clean_text page_text with
        | Ok cleaned =>
            extract_loop (S page_num) rest
                         (text ++ page_marker page_num ++ cleaned)
        | Raise e => Raise e
        end
      else extract_loop (S page_num) rest text
  end.

(** The extractor as the specification words it: the pages that have text,
    in page order, each behind the marker of its 1-indexed position, with
    the code points that have no UTF-8 encoding left out. *)
Definition numbered_pages (pages : list pystr) : list (nat * pystr) :=
  zip (seq 1 (length pages)) pages.

Definition has_text (p : nat * pystr) : bool :=
  negb (Nat.eqb (length (snd p)) 0).

Definition marked_page (p : nat * pystr) : pystr :=
  nl ++ lit "--- Page " ++ str_of_nat (fst p) ++ lit " ---" ++ nl
     ++ List.filter encodable (snd p).

Definition marked_text (pages : list pystr) : pystr :=
  concat (map marked_page (List.filter has_text (numbered_pages pages))).

Section Pipeline.
(** [Store] is the state of the persistent vector store, [E] the
    exceptions of the collaborators. *)
Context {Store E : Type}.
(** [Path(__file__).parent] and [Path(__file__).parent.parent] *)
Variables module_dir project_dir : pystr.
(** [Path.exists] on the source directory, which the run does not write. *)
Variable path_exists : pystr -> bool.
(** [PdfReader(path).pages], each page given by its [extract_text()];
    [inl x] when the reader raises [x]. *)
Variable PdfReader : pystr -> E + list pystr.
(** [RecursiveCharacterTextSplitter(chunk_size, chunk_overlap).split_text] *)
Variable splitter_split_text : nat -> nat -> pystr -> list pystr.
(** [str(datetime.now())]: one reading stands for the clock, whose value no
    statement below depends on. *)
Variable now : pystr.
(** [client.get_or_create_collection] and [collection.add]; each returns
    the exception it raised, if any, and the store it leaves behind. *)
Variable get_or_create_collection :
  pystr -> pystr -> CollectionMeta -> Store -> option E * Store.
Variable collection_add :
  pystr -> list pystr -> list pystr -> list ChunkMeta -> Store
  -> option E * Store.

Definition CHROMA_PATH : pystr := path_join module_dir (lit "chroma_db").

Definition text_splitter_split_text : pystr -> list pystr :=
  splitter_split_text 500 50.

(** A run starts from a store and yields a result (or the exception that
    ended it), the events it produced in order, and the store it leaves. *)
Record Outcome (A : Type) : Type :=
  { res : result E A; events : list Event; final : Store }.
Arguments res {A} _.
Arguments events {A} _.
Arguments final {A} _.

Definition M (A : Type) : Type := Store -> Outcome A.

Definition ret {A} (a : A) : M A :=
  fun s => {| res := Ok a; events := []; final := s |}.
Definition lift {A} (r : result E A) : M A :=
  fun s => {| res := r; events := []; final := s |}.
(** An outcome that comes after the events [t]. *)
Definition prepend {A} (t : list Event) (o : Outcome A) : Outcome A :=
  {| res := res o; events := t ++ events o; final := final o |}.

Definition bind {A B} (m : M A) (k : A -> M B) : M B :=
  fun s =>
    let o := m s in
    match res o with
    | Ok a => prepend (events o) (k a (final o))
    | Raise e => {| res := Raise e; events := events o; final := final o |}
    end.

Definition emit (e : Event) : M unit :=
  fun s => {| res := Ok tt; events := [e]; final := s |}.

Definition print (line : pystr) : M unit := emit (Print line).

(** A store operation: logged, then run on the store. *)
Definition store_op (e : Event) (op : Store -> option E * Store) : M unit :=
  fun s =>
    {| res := match fst (op s) with
              | Some x => Raise (Foreign x)
              | None => Ok tt
              end;
       events := [e];
       final := snd (op s) |}.

Declare Scope io_scope.
Delimit Scope io_scope with io.
Notation "m1 ;; m2" := (bind m1 (fun _ => m2))
  (at level 100, m2 at level 200, right associativity) : io_scope.
Notation "'let*' x := m1 'in' m2" := (bind m1 (fun x => m2))
  (at level 10, x name, m1 at level 100, m2 at level 200) : io_scope.
Local Open Scope io_scope.

Definition extract_text_from_pdf (pdf_path : pystr) : M pystr :=
  emit (ReadPdf pdf_path) ;;
  let* pages := lift (match PdfReader pdf_path with
                      | inl x => Raise (Foreign x)
                      | inr pages => Ok pages
                      end) in
  lift (extract_loop 0 pages []).

(** The [metadata=] dictionary of [get_or_create_collection]. *)
Definition collection_meta (collection_name : pystr) : CollectionMeta :=
  {| description :=
       lit "Code documentation collection for " ++ collection_name;
     created := now |}.

Definition process_pdf (pdf_path collection_name : pystr) : M unit :=
  print (nl ++ lit "Processing: " ++ pdf_path) ;;
  print (lit "  Extracting text from PDF...") ;;
  let* text := extract_text_from_pdf pdf_path in
  if negb (truthy (VStr (strip text))) then
    print (lit "  Warning: No text extracted from " ++ pdf_path)
  else
    print (lit "  Splitting into chunks...") ;;
    emit (SplitText text) ;;
    let chunks := text_splitter_split_text text in
    print (lit "  Created " ++ str_of_nat (length chunks) ++ lit " chunks") ;;
    let metadata := collection_meta collection_name in
    store_op (GetOrCreateCollection collection_name embedding_model_name
                                    metadata)
             (get_or_create_collection collection_name embedding_model_name
                                       metadata) ;;
    let ids := make_ids collection_name chunks in
    let metadatas := make_metadatas pdf_path chunks in
    print (lit "  Creating embeddings and storing in ChromaDB...") ;;
    store_op (CollectionAdd collection_name chunks ids metadatas)
             (collection_add collection_name chunks ids metadatas) ;;
    print (lit "  Stored " ++ str_of_nat (length chunks)
               ++ lit " chunks in '" ++ collection_name
               ++ lit "' collection").

Definition source_dir : pystr := path_join project_dir (lit "ingest_files").

Definition missing_warning (pdf_path : pystr) : pystr :=
  nl ++ lit "Warning: " ++ pdf_path ++ lit " not found, skipping...".

(** The [for pdf_name, collection_name in ....items()] loop of [main]. *)
Fixpoint main_loop (entries : list (pystr * pystr)) : M unit :=
  match entries with
  | [] => ret tt
  | (pdf_name, collection_name) :: rest =>
      let pdf_path := path_join source_dir pdf_name in
      if negb (path_exists pdf_path) then
        print (missing_warning pdf_path) ;;
        main_loop rest
      else
        process_pdf pdf_path collection_name ;;
        main_loop rest
  end.

Definition main : M unit :=
  print (str_mul 61 50) ;;
  print (lit "Document Ingestion Pipeline") ;;
  print (str_mul 61 50) ;;
  print (lit "ChromaDB storage: " ++ CHROMA_PATH) ;;
  main_loop PDF_COLLECTION_MAP ;;
  print (nl ++ str_mul 61 50) ;;
  print (lit "Document ingestion complete!") ;;
  print (lit "Collections created: python_book, java_book, javascript_book") ;;
  print (str_mul 61 50).

End Pipeline.

Arguments Outcome : clear implicits.
Arguments M : clear implicits.
Arguments res {Store E A} _.
Arguments events {Store E A} _.
Arguments final {Store E A} _.

(** What remains of some events once the printed lines are left out. *)
Definition silent (t : list Event) : list Event :=
  List.filter (fun e => negb (is_print e)) t.

(** The store operations among some events. *)
Definition is_store_event (e : Event) : bool :=
  match event_collection e with Some _ => true | None => false end.

Definition store_events (t : list Event) : list Event :=
  List.filter is_store_event t.

(** *** A vector store that rejects an identifier it already holds

    Collections by name; each maps an identifier to its document and
    metadata. [add] inserts the records one by one and raises
    [DuplicateIDError] at the first identifier that is already there, in
    which case nothing of the batch is kept. *)
Inductive StoreError : Type :=
| DuplicateIDError (id : pystr)
| NoSuchCollection (name : pystr).

Abbreviation Collection := (gmap pystr (pystr * ChunkMeta)).
Abbreviation StrictStore := (gmap pystr Collection).

Definition strict_get_or_create (name embedding : pystr)
    (metadata : CollectionMeta) (s : StrictStore)
    : option StoreError * StrictStore :=
  match s !! name with
  | Some _ => (None, s)
  | None => (None, <[name := ∅]> s)
  end.

Fixpoint add_records (col : Collection)
    (records : list (pystr * (pystr * ChunkMeta))) : pystr + Collection :=
  match records with
  | [] => inr col
  | (id, r) :: rest =>
      match col !! id with
      | Some _ => inl id
      | None => add_records (<[id := r]> col) rest
      end
  end.

Definition strict_add (name : pystr) (documents ids : list pystr)
    (metadatas : list ChunkMeta) (s : StrictStore)
    : option StoreError * StrictStore :=
  match s !! name with
  | None => (Some (NoSuchCollection name), s)
  | Some col =>
      match add_records col (zip ids (zip documents metadatas)) with
      | inl id => (Some (DuplicateIDError id), s)
      | inr col' => (None, <[name := col']> s)
      end
  end.

(** [record_in s name id r]: collection [name] of [s] holds [r] under [id]. *)
Definition record_in (s : StrictStore) (name id : pystr)
    (r : pystr * ChunkMeta) : Prop :=
  exists col, s !! name = Some col /\ col !! id = Some r.

End Ingest.

(** ** Concrete collaborators, used to run the embedding on examples *)
Module Samples.
Import Py.

(** A template engine that answers every render with one message holding
    the template path; its environment counts the renders. *)
Definition echo_poml (path : pystr) (ctx : PromptRenderer.Context) (n : nat)
    : (unit + PromptRenderer.Rendered) * nat :=
  (inr {| PromptRenderer.messages :=
           [ {| PromptRenderer.msg_type := lit "human";
                PromptRenderer.content := path |} ] |}, S n).

Definition sample_dir : pystr := lit "/app".

(** A source directory that holds [Python.pdf] only. *)
Definition python_pdf_path : pystr := lit "/app/ingest_files/Python.pdf".

Definition only_python (p : pystr) : bool :=
  bool_decide (p = python_pdf_path).

(** No source file at all. *)
Definition nothing_exists (p : pystr) : bool := false.

(** Every PDF has three pages: text, no text, text. *)
Definition three_pages (p : pystr) : Ingest.StoreError + list pystr :=
  inr [lit "alpha"; []; lit "beta"].

(** A splitter cutting the text in two at [chunk_overlap] characters. *)
Definition halves (chunk_size chunk_overlap : nat) (text : pystr)
    : list pystr :=
  [take chunk_overlap text; drop chunk_overlap text].

Definition sample_now : pystr := lit "2024-01-01 00:00:00".

Definition sample_pages : list pystr := [lit "alpha"; []; lit "beta"].

(** The pipeline on the strict store, with the collaborators above. *)
Definition sample_process_pdf
    : pystr -> pystr -> Ingest.M Ingest.StrictStore Ingest.StoreError unit :=
  Ingest.process_pdf three_pages halves sample_now
                     Ingest.strict_get_or_create Ingest.strict_add.

Definition sample_main (path_exists : pystr -> bool)
    : Ingest.M Ingest.StrictStore Ingest.StoreError unit :=
  Ingest.main sample_dir sample_dir path_exists three_pages halves sample_now
              Ingest.strict_get_or_create Ingest.strict_add.

(** A PDF whose two pages have no text. *)
Definition no_text_pages (p : pystr) : Ingest.StoreError + list pystr :=
  inr [[]; []].

(** Every source file is there. *)
Definition everything_exists (p : pystr) : bool := true.

(** A store that accepts every call and counts them. *)
Definition counting_get_or_create (name model : pystr)
    (metadata : Ingest.CollectionMeta) (calls : nat)
    : option Ingest.StoreError * nat :=
  (None, S calls).

Definition counting_add (name : pystr) (documents ids : list pystr)
    (metadatas : list Ingest.ChunkMeta) (calls : nat)
    : option Ingest.StoreError * nat :=
  (None, S calls).

(** Records for the judge: an empty model name, with and without a
    technique name. *)
Definition unnamed_records : list (gmap pystr PyVal) :=
  [ {[ lit "model_name" := VStr [] ]};
    <[ lit "model_name" := VStr [] ]>
      {[ lit "technique_name" := VStr (lit "cot") ]} ].

End Samples.

(** * Properties *)

Import Py.

Section Decimal.

Let step (a d : Z) : Z := 10 * a + (d - 48).

Lemma digits_go_value fuel : forall n acc,
  Z.of_N n < 2 ^ Z.of_nat fuel -> (0 < fuel)%nat ->
  fold_left step (digits_go fuel n acc) 0
  = fold_left step acc (Z.of_N n).
Proof.
  induction fuel as [|fuel IH]; intros n acc Hn Hf; [lia|].
  cbn [digits_go].
  assert (Hdm : Z.of_N n = 10 * Z.of_N (n / 10) + Z.of_N (n mod 10)).
  { rewrite N2Z.inj_div, N2Z.inj_mod. apply Z.div_mod. lia. }
  assert (Hm : 0 <= Z.of_N (n mod 10) < 10).
  { rewrite N2Z.inj_mod. apply Z.mod_pos_bound. lia. }
  destruct (N.eqb_spec (n / 10) 0) as [H0|H0].
  - cbn [fold_left]. f_equal. unfold step, digit. rewrite Hdm, H0. lia.
  - rewrite Nat2Z.inj_succ, Z.pow_succ_r in Hn by lia.
    destruct fuel as [|fuel'].
    { cbn in Hn. lia. }
    rewrite IH by lia.
    cbn [fold_left]. f_equal. unfold step, digit. rewrite Hdm. lia.
Qed.

Lemma size_nat_bound p : Z.pos p < 2 ^ Z.of_nat (Pos.size_nat p).
Proof.
  induction p as [p IH|p IH|]; cbn [Pos.size_nat];
    rewrite ?Nat2Z.inj_succ, ?Z.pow_succ_r by lia; lia.
Qed.

Lemma dec_value_str_of_N n : dec_value (str_of_N n) = Z.of_N n.
Proof.
  unfold dec_value, str_of_N.
  change (fun a d => 10 * a + (d - 48)) with step.
  rewrite digits_go_value; [reflexivity| |lia].
  rewrite Nat2Z.inj_succ, Z.pow_succ_r by lia.
  destruct n as [|p]; cbn [N.size_nat Z.of_N].
  - cbn. lia.
  - pose proof (size_nat_bound p). lia.
Qed.

Lemma dec_value_zfill w s : dec_value (zfill w s) = dec_value s.
Proof.
  unfold dec_value, zfill. rewrite fold_left_app. f_equal.
  induction (w - length s)%nat as [|k IH]; [reflexivity|].
  cbn [repeat fold_left]. exact IH.
Qed.

Lemma dec_value_format_04d n : dec_value (format_04d n) = Z.of_nat n.
Proof.
  unfold format_04d, str_of_nat.
  rewrite dec_value_zfill, dec_value_str_of_N. lia.
Qed.

Lemma format_04d_inj i j : format_04d i = format_04d j -> i = j.
Proof.
  intros H. apply (f_equal dec_value) in H.
  rewrite !dec_value_format_04d in H. lia.
Qed.

Lemma digits_go_digits fuel : forall n acc,
  Forall (fun c => 48 <= c <= 57) acc ->
  Forall (fun c => 48 <= c <= 57) (digits_go fuel n acc).
Proof.
  induction fuel as [|fuel IH]; intros n acc Hacc; cbn [digits_go];
    [exact Hacc|].
  assert (Forall (fun c => 48 <= c <= 57) (digit (n mod 10) :: acc)) as Hacc'.
  { constructor; [|exact Hacc]. unfold digit.
    assert (0 <= Z.of_N (n mod 10) < 10)
      by (rewrite N2Z.inj_mod; apply Z.mod_pos_bound; lia).
    lia. }
  destruct (_ =? _)%N; [exact Hacc'|apply IH, Hacc'].
Qed.

Lemma digits_go_length_le fuel : forall n acc k,
  Z.of_N n < 10 ^ Z.of_nat k -> (0 < k)%nat ->
  (length (digits_go fuel n acc) <= length acc + k)%nat.
Proof.
  induction fuel as [|fuel IH]; intros n acc k Hn Hk; cbn [digits_go];
    [lia|].
  destruct (N.eqb_spec (n / 10) 0) as [H0|H0]; [cbn [length]; lia|].
  assert (Hdm : Z.of_N n = 10 * Z.of_N (n / 10) + Z.of_N (n mod 10)).
  { rewrite N2Z.inj_div, N2Z.inj_mod. apply Z.div_mod. lia. }
  assert (Hm : 0 <= Z.of_N (n mod 10) < 10).
  { rewrite N2Z.inj_mod. apply Z.mod_pos_bound. lia. }
  destruct k as [|k]; [lia|].
  rewrite Nat2Z.inj_succ, Z.pow_succ_r in Hn by lia.
  destruct k as [|k]; [cbn in Hn; lia|].
  specialize (IH (n / 10)%N (digit (n mod 10) :: acc) (S k)).
  cbn [length] in IH. lia.
Qed.

Lemma digits_go_length_ge fuel : forall n acc k,
  Z.of_N n < 2 ^ Z.of_nat fuel -> 10 ^ Z.of_nat k <= Z.of_N n ->
  (length acc + k + 1 <= length (digits_go fuel n acc))%nat.
Proof.
  induction fuel as [|fuel IH]; intros n acc k Hn Hk.
  - pose proof (Z.pow_pos_nonneg 10 (Z.of_nat k)). cbn in Hn. lia.
  - cbn [digits_go].
    assert (Hdm : Z.of_N n = 10 * Z.of_N (n / 10) + Z.of_N (n mod 10)).
    { rewrite N2Z.inj_div, N2Z.inj_mod. apply Z.div_mod. lia. }
    assert (Hm : 0 <= Z.of_N (n mod 10) < 10).
    { rewrite N2Z.inj_mod. apply Z.mod_pos_bound. lia. }
    rewrite Nat2Z.inj_succ, Z.pow_succ_r in Hn by lia.
    destruct (N.eqb_spec (n / 10) 0) as [H0|H0].
    + destruct k as [|k]; [cbn [length]; lia|].
      rewrite Nat2Z.inj_succ, Z.pow_succ_r in Hk by lia.
      pose proof (Z.pow_pos_nonneg 10 (Z.of_nat k)). lia.
    + destruct k as [|k].
      * specialize (IH (n / 10)%N (digit (n mod 10) :: acc) 0%nat).
        cbn [length] in IH. cbn in IH. lia.
      * rewrite Nat2Z.inj_succ, Z.pow_succ_r in Hk by lia.
        specialize (IH (n / 10)%N (digit (n mod 10) :: acc) k).
        cbn [length] in IH. lia.
Qed.

Lemma str_of_nat_fuel n :
  Z.of_N (N.of_nat n) < 2 ^ Z.of_nat (S (N.size_nat (N.of_nat n))).
Proof.
  rewrite Nat2Z.inj_succ, Z.pow_succ_r by lia.
  destruct (N.of_nat n) as [|p]; cbn [N.size_nat Z.of_N].
  - cbn. lia.
  - pose proof (size_nat_bound p). lia.
Qed.

(** X10. The chunk index in an identifier, [f"{i:04d}"], is made of decimal
    digits only and reads back as [i]. Below 10000 it is exactly four
    characters wide; from 10000 on it is the plain decimal numeral, longer
    than four characters, so identifiers stop having one common width
    there. *)
Theorem format_04d_width (i : nat) :
  Forall (fun ch => 48 <= ch <= 57) (format_04d i)
  /\ dec_value (format_04d i) = Z.of_nat i
  /\ (if Z.of_nat i <? 10000 then length (format_04d i) = 4%nat
      else format_04d i = str_of_nat i
           /\ (4 < length (format_04d i))%nat).
Proof.
  split; [|split; [apply dec_value_format_04d|]].
  - unfold format_04d, zfill. apply Forall_app. split.
    + apply Forall_forall. intros x Hx%list_elem_of_In.
      apply repeat_spec in Hx. lia.
    + apply digits_go_digits. constructor.
  - unfold format_04d, zfill. rewrite length_app, repeat_length.
    destruct (Z.ltb_spec (Z.of_nat i) 10000) as [Hlt|Hge].
    + pose proof (digits_go_length_le (S (N.size_nat (N.of_nat i)))
                    (N.of_nat i) [] 4) as Hle.
      fold (str_of_N (N.of_nat i)) in Hle. fold (str_of_nat i) in Hle.
      cbn [length] in Hle.
      change (10 ^ Z.of_nat 4) with 10000 in Hle.
      assert (length (str_of_nat i) <= 4)%nat by (apply Hle; lia). lia.
    + pose proof (digits_go_length_ge (S (N.size_nat (N.of_nat i)))
                    (N.of_nat i) [] 4 (str_of_nat_fuel i)) as Hge'.
      fold (str_of_N (N.of_nat i)) in Hge'. fold (str_of_nat i) in Hge'.
      cbn [length] in Hge'.
      change (10 ^ Z.of_nat 4) with 10000 in Hge'.
      assert (5 <= length (str_of_nat i))%nat by (apply Hge'; lia).
      replace (4 - length (str_of_nat i))%nat with 0%nat by lia.
      cbn [repeat app]. split; [reflexivity|lia].
Qed.

End Decimal.

Section Utf8.

Ltac bools :=
  repeat match goal with
  | H : _ && _ = true |- _ => apply andb_prop in H; destruct H
  | H : negb _ = true |- _ => apply negb_true_iff in H
  | H : _ && _ = false |- _ => apply andb_false_iff in H; destruct H
  | H : (_ <=? _) = true |- _ => apply Z.leb_le in H
  | H : (_ <=? _) = false |- _ => apply Z.leb_gt in H
  | H : (_ <? _) = true |- _ => apply Z.ltb_lt in H
  | H : (_ <? _) = false |- _ => apply Z.ltb_ge in H
  end.

Lemma leb_true a b : a <= b -> (a <=? b) = true.
Proof. apply Z.leb_le. Qed.
Lemma ltb_true a b : a < b -> (a <? b) = true.
Proof. apply Z.ltb_lt. Qed.
Lemma leb_false a b : b < a -> (a <=? b) = false.
Proof. apply Z.leb_gt. Qed.
Lemma ltb_false a b : b <= a -> (a <? b) = false.
Proof. apply Z.ltb_ge. Qed.

(** Decide every comparison of the goal from the bounds at hand. *)
Ltac tests :=
  repeat match goal with
  | |- context [?a <=? ?b] =>
      first [rewrite (leb_true a b) by lia | rewrite (leb_false a b) by lia]
  | |- context [?a <? ?b] =>
      first [rewrite (ltb_true a b) by lia | rewrite (ltb_false a b) by lia]
  end;
  cbn [andb orb negb].

Lemma encode_cp_None c : encode_cp c = None <-> encodable c = false.
Proof.
  unfold encode_cp. destruct (encodable c); cbn [negb]; [|tauto].
  repeat destruct (_ <? _); split; discriminate.
Qed.

Lemma decode_encode_cp c bs rest :
  encode_cp c = Some bs ->
  decode_utf8 (bs ++ rest)
  = match decode_utf8 rest with Some t => Some (c :: t) | None => None end.
Proof.
  unfold encode_cp.
  destruct (encodable c) eqn:Henc; cbn [negb]; [|discriminate].
  assert (0 <= c <= 1114111 /\ ~ (55296 <= c <= 57343)) as [Hr Hs].
  { unfold encodable, is_surrogate in Henc.
    destruct (Z.leb_spec 0 c), (Z.leb_spec c 1114111),
      (Z.leb_spec 55296 c), (Z.leb_spec c 57343);
      cbn in Henc; try discriminate; lia. }
  clear Henc.
  destruct (c <? 128) eqn:Hlt1; [|destruct (c <? 2048) eqn:Hlt2;
    [|destruct (c <? 65536) eqn:Hlt3]];
    intros [= <-]; bools;
    cbn [app decode_utf8]; unfold is_cont, is_surrogate.
  - tests. reflexivity.
  - assert (2 <= c / 64 < 32 /\ 0 <= c mod 64 < 64
            /\ c / 64 * 64 + c mod 64 = c) as (? & ? & Hc)
      by (Z.div_mod_to_equations; lia).
    tests.
    replace ((192 + c / 64 - 192) * 64 + (128 + c mod 64 - 128)) with c by lia.
    reflexivity.
  - assert (0 <= c / 4096 < 16 /\ 0 <= (c / 64) mod 64 < 64
            /\ 0 <= c mod 64 < 64
            /\ c / 4096 * 4096 + (c / 64) mod 64 * 64 + c mod 64 = c)
      as (? & ? & ? & Hc) by (Z.div_mod_to_equations; lia).
    replace ((224 + c / 4096 - 224) * 4096 + (128 + (c / 64) mod 64 - 128) * 64
             + (128 + c mod 64 - 128)) with c by lia.
    tests.
    destruct (Z.leb_spec 55296 c), (Z.leb_spec c 57343); cbn [andb negb];
      first [reflexivity | exfalso; lia].
  - assert (0 <= c / 262144 < 5 /\ 0 <= (c / 4096) mod 64 < 64
            /\ 0 <= (c / 64) mod 64 < 64 /\ 0 <= c mod 64 < 64
            /\ c / 262144 * 262144 + (c / 4096) mod 64 * 4096
               + (c / 64) mod 64 * 64 + c mod 64 = c)
      as (? & ? & ? & ? & Hc) by (Z.div_mod_to_equations; lia).
    replace ((240 + c / 262144 - 240) * 262144
             + (128 + (c / 4096) mod 64 - 128) * 4096
             + (128 + (c / 64) mod 64 - 128) * 64
             + (128 + c mod 64 - 128)) with c by lia.
    tests. reflexivity.
Qed.

Theorem decode_encode_ignore s :
  decode_utf8 (encode_utf8_ignore s) = Some (List.filter encodable s).
Proof.
  induction s as [|c s IH]; [reflexivity|].
  cbn [encode_utf8_ignore List.filter].
  destruct (encode_cp c) as [bs|] eqn:He.
  - rewrite (decode_encode_cp _ _ _ He), IH.
    destruct (encodable c) eqn:Hc; [reflexivity|].
    apply encode_cp_None in Hc. congruence.
  - apply encode_cp_None in He. rewrite IH, He. reflexivity.
Qed.
End Utf8.


Section Extraction.
Import Ingest.

Lemma clean_text_filter {E} (page_text : pystr) :
  clean_text (E:=E) page_text = Ok (List.filter encodable page_text).
Proof. unfold clean_text. rewrite decode_encode_ignore. reflexivity. Qed.

Lemma extract_loop_marked {E} (pages : list pystr) : forall k text,
  extract_loop (E:=E) k pages text
  = Ok (text ++ concat (map marked_page
                          (List.filter has_text
                             (zip (seq (S k) (length pages)) pages)))).
Proof.
  induction pages as [|t rest IH]; intros k text.
  - cbn. rewrite app_nil_r. reflexivity.
  - cbn [extract_loop length seq zip zip_with List.filter].
    unfold has_text at 1. cbn [snd truthy].
    destruct (negb (length t =? 0)%nat).
    + rewrite clean_text_filter, IH. cbn [map concat].
      rewrite <- !app_assoc. do 2 f_equal.
      unfold marked_page at 2, page_marker. cbn [fst snd].
      rewrite Nat.add_1_r, <- !app_assoc. reflexivity.
    + apply IH.
Qed.

Lemma encodable_not_surrogate c :
  0 <= c <= 1114111 -> encodable c = negb (is_surrogate c).
Proof.
  intros [H0 H1]. unfold encodable.
  rewrite (leb_true 0 c), (leb_true c 1114111) by lia. reflexivity.
Qed.

Lemma filter_all_encodable (s : pystr) :
  Forall (fun c => encodable c = true) s -> List.filter encodable s = s.
Proof.
  induction 1 as [|c s Hc _ IH]; [reflexivity|].
  cbn [List.filter]. rewrite Hc, IH. reflexivity.
Qed.

(** C8. Cleaning a page's text, [encode("utf-8", errors="ignore")] followed
  by [decode("utf-8")], never raises and returns the page's code points
  with exactly those left out that have no UTF-8 encoding; among code
  points of a [str] these are the lone surrogates. Nothing is put in their
  place: taking such a code point out of the input does not change the
  result. Text made of encodable code points comes back unchanged, and the
  page loop never fails on account of the cleaning. *)
Theorem unencodable_characters_are_dropped {E : Type} :
  (forall page_text : pystr,
      clean_text (E:=E) page_text = Ok (List.filter encodable page_text))
  /\ (forall c, 0 <= c <= 1114111 -> encodable c = negb (is_surrogate c))
  /\ (forall page_text : pystr,
        Forall (fun c => encodable c = true) page_text ->
        clean_text (E:=E) page_text = Ok page_text)
  /\ (forall before after c,
        encodable c = false ->
        clean_text (E:=E) (before ++ c :: after)
        = clean_text (E:=E) (before ++ after))
  /\ (forall (page_num : nat) (pages : list pystr) (text : pystr),
        exists text', extract_loop (E:=E) page_num pages text = Ok text').
Proof.
  split; [exact clean_text_filter|].
  split; [exact encodable_not_surrogate|].
  split; [|split].
  - intros t Ht. rewrite clean_text_filter, filter_all_encodable by exact Ht.
    reflexivity.
  - intros before after c Hc. rewrite !clean_text_filter, !List.filter_app.
    cbn [List.filter]. rewrite Hc. reflexivity.
  - intros k pages text. eexists. apply extract_loop_marked.
Qed.

Lemma marked_text_snoc (pages : list pystr) (t : pystr) :
  marked_text (pages ++ [t])
  = marked_text pages
    ++ (if Nat.eqb (length t) 0 then []
        else marked_page (length pages + 1, t)%nat).
Proof.
  unfold marked_text, numbered_pages.
  rewrite length_app, seq_app. cbn [length seq Nat.add].
  rewrite zip_with_app by (rewrite length_seq; reflexivity).
  cbn [zip_with]. rewrite List.filter_app, map_app, concat_app.
  f_equal. cbn [List.filter]. unfold has_text. cbn [snd].
  rewrite Nat.add_1_r.
  destruct (length t =? 0)%nat; cbn [negb map concat];
    [reflexivity|apply app_nil_r].
Qed.
Lemma encodable_ascii (s : string) :
  Forall (fun c => encodable c = true) (lit s).
Proof.
  induction s as [|a s IH]; cbn [lit]; constructor; [|exact IH].
  pose proof (N_ascii_bounded a) as Ha.
  unfold encodable, is_surrogate.
  rewrite (leb_true 0), (leb_true _ 1114111), (leb_false 55296) by lia.
  reflexivity.
Qed.

Lemma encodable_digits (s : pystr) :
  Forall (fun c => 48 <= c <= 57) s -> Forall (fun c => encodable c = true) s.
Proof.
  intros H. eapply Forall_impl; [exact H|].
  intros c Hc. cbn beta in Hc. unfold encodable, is_surrogate.
  rewrite (leb_true 0), (leb_true _ 1114111), (leb_false 55296) by lia.
  reflexivity.
Qed.

Lemma encodable_filter (s : pystr) :
  Forall (fun c => encodable c = true) (List.filter encodable s).
Proof.
  apply Forall_forall. intros c Hc%list_elem_of_In.
  apply filter_In in Hc. tauto.
Qed.

Lemma marked_page_encodable (p : nat * pystr) :
  Forall (fun c => encodable c = true) (marked_page p).
Proof.
  unfold marked_page. repeat (apply Forall_app; split);
    try apply (encodable_ascii _); try apply encodable_filter.
  - repeat constructor.
  - apply encodable_digits, digits_go_digits. constructor.
  - repeat constructor.
Qed.

(** X11. Whatever the pages hold, the text the extractor returns consists of
    code points that have a UTF-8 encoding, so encoding it strictly cannot
    fail later on. Cleaning a page's text a second time changes nothing, and
    the cleaned text is never longer than the page's text. *)
Theorem extracted_text_is_encodable {E : Type} (pages : list pystr)
    (page_text : pystr) :
  (exists text,
      extract_loop (E:=E) 0 pages [] = Ok text
      /\ Forall (fun c => encodable c = true) text
      /\ decode_utf8 (encode_utf8_ignore text) = Some text)
  /\ (exists cleaned,
        clean_text (E:=E) page_text = Ok cleaned
        /\ clean_text (E:=E) cleaned = Ok cleaned
        /\ (length cleaned <= length page_text)%nat).
Proof.
  split.
  - eexists. split; [apply extract_loop_marked|]. cbn [app].
    assert (Forall (fun c => encodable c = true)
              (concat (map marked_page
                         (List.filter has_text
                            (zip (seq 1 (length pages)) pages))))) as Henc.
    { induction (List.filter has_text _) as [|p ps IH]; cbn [map concat];
        [constructor|].
      apply Forall_app. split; [apply marked_page_encodable|exact IH]. }
    split; [exact Henc|].
    rewrite decode_encode_ignore. f_equal.
    apply filter_all_encodable, Henc.
  - exists (List.filter encodable page_text).
    split; [apply clean_text_filter|]. split.
    + rewrite clean_text_filter. f_equal.
      apply filter_all_encodable, encodable_filter.
    + apply List.filter_length_le.
Qed.

End Extraction.

Section RendererFacts.
Import PromptRenderer.
Context {Env E : Type}.
Variable module_dir : pystr.
Variable poml : pystr -> Context -> Env -> (E + Rendered) * Env.

Local Abbreviation World := (World Env).
Local Abbreviation exec := (exec module_dir poml).
Local Abbreviation exec_all := (exec_all module_dir poml).
Local Abbreviation render_answer_prompt :=
  (render_answer_prompt module_dir poml).
Local Abbreviation render_judge_prompt := (render_judge_prompt module_dir poml).
Local Abbreviation render_routing_prompt :=
  (render_routing_prompt module_dir poml).
Local Abbreviation call_poml := (call_poml poml).
Local Abbreviation get_answer_techniques :=
  (get_answer_techniques (Env:=Env) (E:=E)).

Lemma call_poml_techniques path ctx (w : World) :
  ANSWER_TECHNIQUES (snd (call_poml path ctx w)) = ANSWER_TECHNIQUES w.
Proof. unfold PromptRenderer.call_poml. destruct (poml _ _ _). reflexivity. Qed.

Lemma render_techniques path ctx (w : World) :
  ANSWER_TECHNIQUES (snd (bind (call_poml path ctx) first_content w))
  = ANSWER_TECHNIQUES w.
Proof.
  unfold bind. pose proof (call_poml_techniques path ctx w) as H.
  destruct (call_poml path ctx w) as [[r|e] w']; cbn [snd] in *; [|exact H].
  unfold first_content. destruct (messages r); exact H.
Qed.

Lemma exec_techniques c (w : World) :
  ANSWER_TECHNIQUES (exec c w) = ANSWER_TECHNIQUES w.
Proof.
  destruct c; cbn [PromptRenderer.exec].
  - apply render_techniques.
  - unfold PromptRenderer.render_answer_prompt.
    destruct (negb _); [reflexivity|apply render_techniques].
  - apply render_techniques.
  - reflexivity.
Qed.

Lemma exec_all_techniques cs : forall w : World,
  ANSWER_TECHNIQUES (exec_all cs w) = ANSWER_TECHNIQUES w.
Proof.
  induction cs as [|c cs IH]; intros w; [reflexivity|].
  cbn [PromptRenderer.exec_all fold_left].
  change (fold_left _ cs ?x) with (exec_all cs x).
  rewrite IH. apply exec_techniques.
Qed.

(** C6. After any sequence of calls of the module's functions,
  [get_answer_techniques] returns the four-entry mapping
  zero_shot: Zero-Shot, few_shot: Few-Shot, cot: Chain of Thought,
  advanced: Constrained-Guided Generation, and leaves the module state as
  it is. *)
Theorem get_answer_techniques_constant (cs : list (Call)) (e : Env) :
  fst (get_answer_techniques (exec_all cs (init e)))
  = Ok [ (lit "zero_shot", lit "Zero-Shot");
         (lit "few_shot", lit "Few-Shot");
         (lit "cot", lit "Chain of Thought");
         (lit "advanced", lit "Constrained-Guided Generation") ]
  /\ snd (get_answer_techniques (exec_all cs (init e))) = exec_all cs (init e).
Proof.
  split; [|reflexivity].
  cbn [PromptRenderer.get_answer_techniques fst].
  rewrite exec_all_techniques. reflexivity.
Qed.

(** C1. [render_answer_prompt] on a technique outside
  zero_shot, few_shot, cot, advanced raises [ValueError] with the message
  naming the technique and listing exactly the four keys, and the module
  state is the one before the call: no render was requested. On a
  technique of the set the call is the template render followed by the
  extraction of the first message, and it raises no [ValueError]. *)
Theorem render_answer_prompt_validates (cs : list Call) (e : Env)
    (technique question context language conversation_context : pystr) :
  let w := exec_all cs (init e) in
  let run := render_answer_prompt technique question context language
               conversation_context w in
  (technique ∉ [lit "zero_shot"; lit "few_shot"; lit "cot"; lit "advanced"] ->
     run = (Raise (ValueError
              (lit "Invalid technique: " ++ technique
               ++ lit ". Must be one of ['zero_shot', 'few_shot', 'cot', 'advanced']")), w))
  /\ (technique ∈ [lit "zero_shot"; lit "few_shot"; lit "cot"; lit "advanced"] ->
        run = bind (call_poml (ANSWER_POML module_dir)
                      (AnswerContext technique question context language
                                     conversation_context))
                   first_content w
        /\ forall msg, fst run <> Raise (ValueError msg)).
Proof.
  intros w run. subst run.
  unfold PromptRenderer.render_answer_prompt.
  assert (ANSWER_TECHNIQUES w = ANSWER_TECHNIQUES_literal) as ->
    by apply exec_all_techniques.
  unfold dict_contains.
  change (dict_keys ANSWER_TECHNIQUES_literal)
    with [lit "zero_shot"; lit "few_shot"; lit "cot"; lit "advanced"].
  split; intros Hin.
  - rewrite bool_decide_eq_false_2 by exact Hin. reflexivity.
  - rewrite bool_decide_eq_true_2 by exact Hin. cbn [negb].
    split; [reflexivity|].
    intros msg. unfold bind, PromptRenderer.call_poml.
    destruct (poml _ _ _) as [[x|r] e']; cbn [fst]; [discriminate|].
    unfold first_content. destruct (messages r); discriminate.
Qed.
Lemma render_run path ctx (w : World) :
  bind (call_poml path ctx) first_content w
  = (match fst (poml path ctx (env w)) with
     | inl x => Raise (Foreign x)
     | inr r =>
         match messages r with
         | m :: _ => Ok (content m)
         | [] => Raise IndexError
         end
     end,
     {| ANSWER_TECHNIQUES := ANSWER_TECHNIQUES w;
        env := snd (poml path ctx (env w));
        renders := renders w ++ [(path, ctx)] |}).
Proof.
  unfold bind, PromptRenderer.call_poml.
  destruct (poml path ctx (env w)) as [[x|r] e']; cbn [fst snd];
    [reflexivity|].
  unfold first_content. destruct (messages r); reflexivity.
Qed.

(** X1. [render_routing_prompt] validates nothing: for every question it
    asks the engine for one render of the routing template with the context
    question: [question]. What it returns is the content of the first
    message only; an engine exception passes through, and a render without
    any message ends in [IndexError]. The global dictionary is untouched. *)
Theorem render_routing_prompt_outcome (question : pystr) (w : World) :
  let answer := poml (ROUTING_POML module_dir) (RoutingContext question)
                     (env w) in
  fst (render_routing_prompt question w)
  = match fst answer with
    | inl x => Raise (Foreign x)
    | inr r =>
        match messages r with
        | m :: _ => Ok (content m)
        | [] => Raise IndexError
        end
    end
  /\ renders (snd (render_routing_prompt question w))
     = renders w ++ [(ROUTING_POML module_dir, RoutingContext question)]
  /\ env (snd (render_routing_prompt question w)) = snd answer
  /\ ANSWER_TECHNIQUES (snd (render_routing_prompt question w))
     = ANSWER_TECHNIQUES w.
Proof.
  intros answer. unfold PromptRenderer.render_routing_prompt.
  rewrite render_run. cbn [fst snd renders env ANSWER_TECHNIQUES]. auto.
Qed.

Lemma exec_renders c (w : World) :
  ANSWER_TECHNIQUES w = ANSWER_TECHNIQUES_literal ->
  length (renders (exec c w))
  = (length (renders w)
     + match c with
       | CallRouting _ => 1
       | CallAnswer t _ _ _ _ =>
           if bool_decide
                (t ∈ [lit "zero_shot"; lit "few_shot"; lit "cot";
                      lit "advanced"])
           then 1 else 0
       | CallJudge _ _ _ => 1
       | CallGetTechniques => 0
       end)%nat.
Proof.
  intros Hw. destruct c; cbn [PromptRenderer.exec].
  - unfold PromptRenderer.render_routing_prompt. rewrite render_run.
    cbn [snd renders]. rewrite length_app. reflexivity.
  - unfold PromptRenderer.render_answer_prompt. rewrite Hw.
    unfold dict_contains.
    change (dict_keys ANSWER_TECHNIQUES_literal)
      with [lit "zero_shot"; lit "few_shot"; lit "cot"; lit "advanced"].
    destruct (bool_decide _); cbn [negb].
    + rewrite render_run. cbn [snd renders]. rewrite length_app. reflexivity.
    + cbn [PromptRenderer.raise snd]. lia.
  - unfold PromptRenderer.render_judge_prompt. rewrite render_run.
    cbn [snd renders]. rewrite length_app. reflexivity.
  - cbn [PromptRenderer.get_answer_techniques snd]. lia.
Qed.

Lemma exec_all_renders (cs : list Call) : forall w : World,
  ANSWER_TECHNIQUES w = ANSWER_TECHNIQUES_literal ->
  length (renders (exec_all cs w))
  = (length (renders w)
     + length
         (List.filter
            (fun c =>
               match c with
               | CallRouting _ => true
               | CallAnswer t _ _ _ _ =>
                   bool_decide
                     (t ∈ [lit "zero_shot"; lit "few_shot"; lit "cot";
                           lit "advanced"])
               | CallJudge _ _ _ => true
               | CallGetTechniques => false
               end) cs))%nat.
Proof.
  induction cs as [|c cs IH]; intros w Hw.
  - cbn. lia.
  - cbn [PromptRenderer.exec_all fold_left List.filter].
    change (fold_left _ cs ?x) with (exec_all cs x).
    specialize (IH (exec c w)).
    rewrite exec_techniques in IH. specialize (IH Hw).
    pose proof (exec_renders c w Hw) as Hc.
    destruct c; cbn [length] in *; try destruct (bool_decide _);
      cbn [length] in *; lia.
Qed.

(** X2. From the state the module has after import, the number of renders
    requested of the template engine by any sequence of calls is the number
    of routing and judge calls plus the number of answer calls whose
    technique is one of the four keys: a rejected answer call and
    [get_answer_techniques] never reach the engine, every other call reaches
    it exactly once, whether or not the render succeeds. *)
Theorem renders_requested (cs : list Call) (e : Env) :
  length (renders (exec_all cs (init e)))
  = length
      (List.filter
         (fun c =>
            match c with
            | CallRouting _ => true
            | CallAnswer t _ _ _ _ =>
                bool_decide
                  (t ∈ [lit "zero_shot"; lit "few_shot"; lit "cot";
                        lit "advanced"])
            | CallJudge _ _ _ => true
            | CallGetTechniques => false
            end) cs).
Proof. apply (exec_all_renders cs (init e)). reflexivity. Qed.

Lemma exec_renders_shape c (w : World) :
  ANSWER_TECHNIQUES w = ANSWER_TECHNIQUES_literal ->
  renders (exec c w) = renders w
  \/ exists path ctx,
       renders (exec c w) = renders w ++ [(path, ctx)]
       /\ match ctx with
          | RoutingContext _ => path = ROUTING_POML module_dir
          | AnswerContext t _ _ _ _ =>
              path = ANSWER_POML module_dir
              /\ t ∈ [lit "zero_shot"; lit "few_shot"; lit "cot";
                      lit "advanced"]
          | JudgeContext _ _ _ => path = JUDGE_POML module_dir
          end.
Proof.
  intros Hw. destruct c; cbn [PromptRenderer.exec].
  - right. unfold PromptRenderer.render_routing_prompt. rewrite render_run.
    cbn [snd renders]. eexists _, _. split; reflexivity.
  - unfold PromptRenderer.render_answer_prompt. rewrite Hw.
    unfold dict_contains.
    change (dict_keys ANSWER_TECHNIQUES_literal)
      with [lit "zero_shot"; lit "few_shot"; lit "cot"; lit "advanced"].
    destruct (bool_decide_reflect
                (technique ∈ [lit "zero_shot"; lit "few_shot"; lit "cot";
                              lit "advanced"])) as [Hin|Hout]; cbn [negb].
    + right. rewrite render_run. cbn [snd renders]. eexists _, _.
      split; [reflexivity|]. split; [reflexivity|exact Hin].
    + left. reflexivity.
  - right. unfold PromptRenderer.render_judge_prompt. rewrite render_run.
    cbn [snd renders]. eexists _, _. split; reflexivity.
  - left. reflexivity.
Qed.

(** X12. Whatever calls are made after import, each render requested of the
    template engine pairs a template with its own kind of context: the
    routing template with a question, the judge template with a judge
    context, and the answer template with an answer context whose technique
    is one of the four keys. The answer template is never rendered for an
    unknown technique. *)
Theorem renders_are_well_formed (cs : list Call) (e : Env)
    (path : pystr) (ctx : Context) :
  In (path, ctx) (renders (exec_all cs (init e))) ->
  match ctx with
  | RoutingContext _ => path = ROUTING_POML module_dir
  | AnswerContext t _ _ _ _ =>
      path = ANSWER_POML module_dir
      /\ t ∈ [lit "zero_shot"; lit "few_shot"; lit "cot"; lit "advanced"]
  | JudgeContext _ _ _ => path = JUDGE_POML module_dir
  end.
Proof.
  assert (forall (l : list Call) (w : World),
             ANSWER_TECHNIQUES w = ANSWER_TECHNIQUES_literal ->
             In (path, ctx) (renders (exec_all l w)) ->
             In (path, ctx) (renders w)
             \/ match ctx with
                | RoutingContext _ => path = ROUTING_POML module_dir
                | AnswerContext t _ _ _ _ =>
                    path = ANSWER_POML module_dir
                    /\ t ∈ [lit "zero_shot"; lit "few_shot"; lit "cot";
                            lit "advanced"]
                | JudgeContext _ _ _ => path = JUDGE_POML module_dir
                end) as Hgen.
  { induction l as [|c l IH]; intros w Hw Hin; [left; exact Hin|].
    cbn [PromptRenderer.exec_all fold_left] in Hin.
    change (fold_left _ l ?x) with (exec_all l x) in Hin.
    apply IH in Hin as [Hin|Hok]; [|right; exact Hok|].
    - destruct (exec_renders_shape c w Hw) as [Heq|(p & x & Heq & Hshape)];
        rewrite Heq in Hin; [left; exact Hin|].
      apply in_app_or in Hin as [Hin|[Hin|[]]]; [left; exact Hin|].
      injection Hin as <- <-. right. exact Hshape.
    - rewrite exec_techniques. exact Hw. }
  intros Hin. destruct (Hgen cs (init e) eq_refl Hin) as [[]|Hok]. exact Hok.
Qed.

End RendererFacts.

Section JudgeFacts.
Import PromptRenderer.

Lemma judge_loop_app responses : forall idx acc,
  judge_loop idx responses acc
  = acc ++ imap (fun i item => judge_entry (idx + i) item) responses.
Proof.
  induction responses as [|item rest IH]; intros idx acc.
  - cbn. rewrite app_nil_r. reflexivity.
  - cbn [judge_loop imap]. rewrite IH, <- app_assoc. cbn [app].
    rewrite Nat.add_0_r. do 2 f_equal.
    apply imap_ext. intros i x _. cbn. f_equal. lia.
Qed.

Lemma build_responses_list_lookup responses i item :
  responses !! i = Some item ->
  build_responses_list responses !! i = Some (judge_entry (S i) item).
Proof.
  intros H. unfold build_responses_list.
  rewrite judge_loop_app. cbn [app].
  rewrite list_lookup_imap, H. reflexivity.
Qed.

Lemma build_responses_list_length responses :
  length (build_responses_list responses) = length responses.
Proof.
  unfold build_responses_list. rewrite judge_loop_app. cbn [app].
  apply length_imap.
Qed.

Context {Env E : Type}.
Variable module_dir : pystr.
Variable poml : pystr -> Context -> Env -> (E + Rendered) * Env.

(** C2. [render_judge_prompt] hands the template engine a
  [responses_list] with one entry per response record, in order. The
  entry at 1-indexed position [i + 1] is labelled by the record's model
  name, else its technique name, else ["Item {i+1}"] ([or] picks the first
  truthy operand), and carries the record's ["response"] value, or the
  empty string when the key is missing. For the records
  model_name: gpt / technique_name: cot / (empty) the labels are gpt, cot
  and Item 3, each with an empty response. *)
Theorem responses_list_labels (question comparison_type : pystr)
    (responses : list (gmap pystr PyVal)) (w : World Env) :
  let out := build_responses_list responses in
  renders (snd (render_judge_prompt module_dir poml question responses
                                    comparison_type w))
  = renders w ++ [(JUDGE_POML module_dir,
                   JudgeContext question comparison_type out)]
  /\ length out = length responses
  /\ (forall i item, responses !! i = Some item ->
        exists entry, out !! i = Some entry
          /\ label entry =
               (let model_name := default VNone (item !! lit "model_name") in
                let technique_name :=
                  default VNone (item !! lit "technique_name") in
                if truthy model_name then model_name
                else if truthy technique_name then technique_name
                else VStr (lit "Item " ++ str_of_nat (i + 1)))
          /\ response entry =
               match item !! lit "response" with
               | Some text => text
               | None => VStr []
               end)
  /\ build_responses_list
       [ {[ lit "model_name" := VStr (lit "gpt") ]};
         {[ lit "technique_name" := VStr (lit "cot") ]};
         ∅ ]
     = [ {| label := VStr (lit "gpt"); response := VStr [] |};
         {| label := VStr (lit "cot"); response := VStr [] |};
         {| label := VStr (lit "Item 3"); response := VStr [] |} ].
Proof.
  intros out. split; [|split; [|split]].
  - unfold render_judge_prompt, bind, call_poml.
    destruct (poml _ _ _) as [[x|r] e']; cbn [snd]; [reflexivity|].
    unfold first_content. destruct (messages r); reflexivity.
  - apply build_responses_list_length.
  - intros i item Hi. exists (judge_entry (S i) item).
    split; [apply build_responses_list_lookup, Hi|].
    rewrite Nat.add_1_r. split; [reflexivity|].
    cbn [response judge_entry]. unfold dict_get_default.
    destruct (item !! lit "response"); reflexivity.
  - vm_compute. reflexivity.
Qed.

(** C9. A record whose ["model_name"] is present but falsy is labelled by
  its technique name when that is truthy and by ["Item {n}"] otherwise;
  the label is truthy, hence never the falsy model name. *)
Theorem falsy_model_name_is_skipped (responses : list (gmap pystr PyVal))
    (i : nat) (item : gmap pystr PyVal) (model_name : PyVal) :
  responses !! i = Some item ->
  item !! lit "model_name" = Some model_name ->
  truthy model_name = false ->
  exists entry,
    build_responses_list responses !! i = Some entry
    /\ label entry =
         (let technique_name :=
            default VNone (item !! lit "technique_name") in
          if truthy technique_name then technique_name
          else VStr (lit "Item " ++ str_of_nat (i + 1)))
    /\ truthy (label entry) = true
    /\ label entry <> model_name.
Proof.
  intros Hi Hm Hf. exists (judge_entry (S i) item).
  split; [apply build_responses_list_lookup, Hi|].
  assert (label (judge_entry (S i) item)
          = py_or (dict_get item (lit "technique_name"))
                  (VStr (lit "Item " ++ str_of_nat (S i)))) as Hl.
  { cbn [label judge_entry]. unfold py_or at 1, dict_get at 1.
    rewrite Hm. cbn [from_option]. unfold id. rewrite Hf. reflexivity. }
  assert (truthy (label (judge_entry (S i) item)) = true) as Ht.
  { rewrite Hl. unfold py_or.
    destruct (truthy (dict_get item (lit "technique_name"))) eqn:Htn;
      [exact Htn|reflexivity]. }
  rewrite Nat.add_1_r. split; [exact Hl|]. split; [exact Ht|].
  intros Heq. rewrite Heq in Ht. congruence.
Qed.
(** X3. Every label of [responses_list] is truthy, whatever the records
    hold: a missing, [None] or empty name never becomes a label, the
    positional fallback takes its place. *)
Theorem labels_are_truthy (responses : list (gmap pystr PyVal))
    (entry : LabelledResponse) :
  In entry (build_responses_list responses) ->
  truthy (label entry) = true.
Proof.
  intros Hin. apply list_elem_of_In, list_elem_of_lookup in Hin as [i Hi].
  assert (exists item, responses !! i = Some item) as [item Hitem].
  { apply lookup_lt_is_Some. rewrite <- build_responses_list_length.
    apply lookup_lt_is_Some. eauto. }
  rewrite (build_responses_list_lookup _ _ _ Hitem) in Hi.
  injection Hi as <-. cbn [label judge_entry]. unfold py_or.
  destruct (truthy (dict_get item (lit "model_name"))) eqn:Hm; [exact Hm|].
  destruct (truthy (dict_get item (lit "technique_name"))) eqn:Ht;
    [exact Ht|reflexivity].
Qed.

(** X4. Labelling is positional and local: the entries built for a list of
    records followed by further records are the entries of the first list,
    unchanged, followed by those of the further records numbered from where
    the first list ends. *)
Theorem build_responses_list_app (first more : list (gmap pystr PyVal)) :
  build_responses_list (first ++ more)
  = build_responses_list first ++ judge_loop (S (length first)) more [].
Proof.
  unfold build_responses_list. rewrite !judge_loop_app. cbn [app].
  rewrite imap_app. reflexivity.
Qed.

End JudgeFacts.


Section PipelineFacts.
Import Ingest.
Context {Store E : Type}.
Variables module_dir project_dir : pystr.
Variable path_exists : pystr -> bool.
Variable PdfReader : pystr -> E + list pystr.
Variable splitter_split_text : nat -> nat -> pystr -> list pystr.
Variable now : pystr.
Variable get_or_create_collection :
  pystr -> pystr -> CollectionMeta -> Store -> option E * Store.
Variable collection_add :
  pystr -> list pystr -> list pystr -> list ChunkMeta -> Store
  -> option E * Store.

Local Abbreviation extract_text_from_pdf :=
  (extract_text_from_pdf (Store:=Store) PdfReader).
Local Abbreviation process_pdf :=
  (process_pdf PdfReader splitter_split_text now get_or_create_collection
               collection_add).
Local Abbreviation main_loop :=
  (main_loop project_dir path_exists PdfReader splitter_split_text now
             get_or_create_collection collection_add).
Local Abbreviation main :=
  (main module_dir project_dir path_exists PdfReader splitter_split_text now
        get_or_create_collection collection_add).
Local Abbreviation split_text := (text_splitter_split_text splitter_split_text).

Local Abbreviation collection_meta := (collection_meta now).

Lemma extract_text_from_pdf_run pdf_path s :
  extract_text_from_pdf pdf_path s
  = {| res := match PdfReader pdf_path with
              | inl x => Raise (Foreign x)
              | inr pages => Ok (marked_text pages)
              end;
       events := [ReadPdf pdf_path];
       final := s |}.
Proof.
  unfold Ingest.extract_text_from_pdf, bind, emit, lift. cbn.
  destruct (PdfReader pdf_path) as [x|pages]; cbn; [reflexivity|].
  rewrite extract_loop_marked. reflexivity.
Qed.

Lemma bind_emit {B} (e : Event) (k : unit -> M Store E B) (s : Store) :
  bind (emit e) k s = prepend [e] (k tt s).
Proof. reflexivity. Qed.

Lemma bind_store_op {B} (e : Event) op (k : unit -> M Store E B) (s : Store) :
  bind (store_op e op) k s
  = match fst (op s) with
    | Some x => {| res := Raise (Foreign x); events := [e];
                   final := snd (op s) |}
    | None => prepend [e] (k tt (snd (op s)))
    end.
Proof.
  unfold bind, store_op. cbn [res events final].
  destruct (fst (op s)); reflexivity.
Qed.

Lemma bind_extract {B} pdf_path (k : pystr -> M Store E B) (s : Store) :
  bind (extract_text_from_pdf pdf_path) k s
  = match PdfReader pdf_path with
    | inl x => {| res := Raise (Foreign x); events := [ReadPdf pdf_path];
                  final := s |}
    | inr pages => prepend [ReadPdf pdf_path] (k (marked_text pages) s)
    end.
Proof.
  unfold bind at 1. rewrite extract_text_from_pdf_run.
  cbn [res events final]. destruct (PdfReader pdf_path); reflexivity.
Qed.

Lemma process_pdf_run pdf_path c s :
  process_pdf pdf_path c s
  = let pre := [ Print (nl ++ lit "Processing: " ++ pdf_path);
                 Print (lit "  Extracting text from PDF...");
                 ReadPdf pdf_path ] in
    match PdfReader pdf_path with
    | inl x => {| res := Raise (Foreign x); events := pre; final := s |}
    | inr pages =>
        let text := marked_text pages in
        if negb (truthy (VStr (strip text))) then
          {| res := Ok tt;
             events :=
               pre ++ [Print (lit "  Warning: No text extracted from "
                                  ++ pdf_path)];
             final := s |}
        else
          let chunks := split_text text in
          let ids := make_ids c chunks in
          let metadatas := make_metadatas pdf_path chunks in
          let goc :=
            get_or_create_collection c embedding_model_name
                                     (collection_meta c) s in
          let mid :=
            pre ++ [ Print (lit "  Splitting into chunks...");
                     SplitText text;
                     Print (lit "  Created " ++ str_of_nat (length chunks)
                                ++ lit " chunks");
                     GetOrCreateCollection c embedding_model_name
                                           (collection_meta c) ] in
          match fst goc with
          | Some x =>
              {| res := Raise (Foreign x); events := mid; final := snd goc |}
          | None =>
              let add := collection_add c chunks ids metadatas (snd goc) in
              let sent :=
                mid ++ [ Print (lit "  Creating embeddings and storing in ChromaDB...");
                         CollectionAdd c chunks ids metadatas ] in
              match fst add with
              | Some x =>
                  {| res := Raise (Foreign x); events := sent;
                     final := snd add |}
              | None =>
                  {| res := Ok tt;
                     events :=
                       sent ++ [Print (lit "  Stored "
                                         ++ str_of_nat (length chunks)
                                         ++ lit " chunks in '" ++ c
                                         ++ lit "' collection")];
                     final := snd add |}
              end
          end
    end.
Proof.
  unfold Ingest.process_pdf, print.
  rewrite !bind_emit, bind_extract.
  destruct (PdfReader pdf_path) as [x|pages]; [reflexivity|].
  cbn zeta.
  destruct (negb (truthy (VStr (strip (marked_text pages)))));
    [reflexivity|].
  rewrite !bind_emit, bind_store_op.
  destruct (fst (get_or_create_collection _ _ _ _)); [reflexivity|].
  rewrite bind_emit, bind_store_op.
  destruct (fst (collection_add _ _ _ _ _)); reflexivity.
Qed.

Lemma truthy_strip text :
  strip text <> [] -> negb (truthy (VStr (strip text))) = false.
Proof. cbn [truthy]. destruct (strip text); [congruence|reflexivity]. Qed.

Lemma chunk_id_inj c i j : chunk_id c i = chunk_id c j -> i = j.
Proof.
  unfold chunk_id. intros H.
  apply app_inv_head in H. apply app_inv_head in H.
  apply format_04d_inj, H.
Qed.

Lemma make_ids_lookup c (chunks : list pystr) i :
  (i < length chunks)%nat -> make_ids c chunks !! i = Some (chunk_id c i).
Proof.
  intros Hi. unfold make_ids.
  rewrite list_lookup_fmap, lookup_seq_lt by exact Hi. reflexivity.
Qed.

Lemma make_metadatas_lookup p (chunks : list pystr) i :
  (i < length chunks)%nat ->
  make_metadatas p chunks !! i
  = Some {| source := basename p; chunk_index := i |}.
Proof.
  intros Hi. unfold make_metadatas.
  rewrite list_lookup_fmap, lookup_seq_lt by exact Hi. reflexivity.
Qed.

Lemma make_ids_length c (chunks : list pystr) :
  length (make_ids c chunks) = length chunks.
Proof. unfold make_ids. rewrite length_fmap. apply length_seq. Qed.

Lemma make_metadatas_length p (chunks : list pystr) :
  length (make_metadatas p chunks) = length chunks.
Proof. unfold make_metadatas. rewrite length_fmap. apply length_seq. Qed.

Lemma make_ids_NoDup c (chunks : list pystr) : NoDup (make_ids c chunks).
Proof.
  unfold make_ids. apply NoDup_fmap_2; [|apply NoDup_seq].
  intros i j. apply chunk_id_inj.
Qed.

(** C7. For a PDF the reader opens, [extract_text_from_pdf] returns
  [marked_text pages]: in page order, each page with extractable text
  behind its ["--- Page N ---"] marker, [N] its 1-indexed position; a page
  without text adds neither marker nor text. It only reads the file. *)
Theorem extract_text_from_pdf_marks_pages (pdf_path : pystr)
    (pages : list pystr) (s : Store) :
  PdfReader pdf_path = inr pages ->
  extract_text_from_pdf pdf_path s
  = {| res := Ok (marked_text pages);
       events := [ReadPdf pdf_path];
       final := s |}.
Proof. intros H. rewrite extract_text_from_pdf_run, H. reflexivity. Qed.

(** C3. When the extracted text is not blank and the collection is obtained,
  [process_pdf] sends the store exactly one batch: the chunks produced by
  the splitter on the extracted text, with as many identifiers and as
  many metadata records as chunks, the identifier at index [i] being
  ["{c}_chunk_{i:04d}"] and the metadata source: base file name,
  chunk_index: [i]. The store the run leaves is the one [collection.add]
  leaves when given this batch on the store left by the get-or-create, and
  the run returns normally exactly when that add does, and otherwise ends
  with the exception of the add. *)
Theorem process_pdf_stores_one_record_per_chunk
    (pdf_path c text : pystr) (s : Store) :
  res (extract_text_from_pdf pdf_path s) = Ok text ->
  strip text <> [] ->
  fst (get_or_create_collection c embedding_model_name (collection_meta c) s)
  = None ->
  let chunks := split_text text in
  exists ids metadatas,
    store_events (events (process_pdf pdf_path c s))
    = [ GetOrCreateCollection c embedding_model_name (collection_meta c);
        CollectionAdd c chunks ids metadatas ]
    /\ length ids = length chunks
    /\ length metadatas = length chunks
    /\ (forall i, (i < length chunks)%nat ->
          ids !! i = Some (c ++ lit "_chunk_" ++ format_04d i)
          /\ metadatas !! i
             = Some {| source := basename pdf_path; chunk_index := i |})
    /\ final (process_pdf pdf_path c s)
       = snd (collection_add c chunks ids metadatas
                (snd (get_or_create_collection c embedding_model_name
                        (collection_meta c) s)))
    /\ res (process_pdf pdf_path c s)
       = match fst (collection_add c chunks ids metadatas
                      (snd (get_or_create_collection c embedding_model_name
                              (collection_meta c) s))) with
         | Some x => Raise (Foreign x)
         | None => Ok tt
         end.
Proof.
  intros Hx Hs Hg chunks.
  rewrite extract_text_from_pdf_run in Hx. cbn [res] in Hx.
  destruct (PdfReader pdf_path) as [x|pages] eqn:Hp; [discriminate|].
  injection Hx as Hx.
  exists (make_ids c chunks), (make_metadatas pdf_path chunks).
  split; [|split; [apply make_ids_length|split;
                   [apply make_metadatas_length|split]]].
  - rewrite process_pdf_run, Hp. cbn zeta. rewrite Hx, (truthy_strip _ Hs), Hg.
    fold chunks.
    destruct (fst (collection_add _ _ _ _ _)); reflexivity.
  - intros i Hi. split;
      [apply make_ids_lookup, Hi|apply make_metadatas_lookup, Hi].
  - rewrite process_pdf_run, Hp. cbn zeta. rewrite Hx, (truthy_strip _ Hs), Hg.
    fold chunks.
    destruct (fst (collection_add _ _ _ _ _)); split; reflexivity.
Qed.

Lemma process_pdf_event_kinds p c s e :
  In e (events (process_pdf p c s)) ->
  is_print e = true \/ e = ReadPdf p \/ (exists t, e = SplitText t)
  \/ (exists chunks,
        e = CollectionAdd c chunks (make_ids c chunks)
                          (make_metadatas p chunks))
  \/ e = GetOrCreateCollection c embedding_model_name (collection_meta c).
Proof.
  rewrite process_pdf_run. cbn zeta.
  destruct (PdfReader p) as [x|pages];
    [|destruct (negb _);
      [|destruct (fst (get_or_create_collection _ _ _ _));
        [|destruct (fst (collection_add _ _ _ _ _))]]];
    cbn [events app In]; intros H;
    repeat (destruct H as [<-|H]; [eauto 8|]); destruct H.
Qed.

(** X14. Whatever the store answers, [process_pdf] asks it for nothing but
    a get-or-create, then possibly one add, both on its own collection:
    never an add without the get-or-create before it, never two adds, and no
    operation that removes or replaces records. *)
Lemma process_pdf_store_operations p c s :
  let goc := GetOrCreateCollection c embedding_model_name (collection_meta c) in
  store_events (events (process_pdf p c s)) = []
  \/ store_events (events (process_pdf p c s)) = [goc]
  \/ exists chunks,
       store_events (events (process_pdf p c s))
       = [goc; CollectionAdd c chunks (make_ids c chunks)
                             (make_metadatas p chunks)].
Proof.
  rewrite process_pdf_run. cbn zeta.
  destruct (PdfReader p) as [x|pages]; [left; reflexivity|].
  destruct (negb _); [left; reflexivity|].
  destruct (fst (get_or_create_collection _ _ _ _));
    [right; left; reflexivity|].
  right; right. eexists.
  destruct (fst (collection_add _ _ _ _ _)); reflexivity.
Qed.

(** C10. In any batch that [process_pdf] submits, the identifiers are
  pairwise distinct, there is one identifier and one metadata record per
  document, and at each index [i] the identifier is the one formatted
  from [i] and the metadata has chunk_index [i]. The formatting is
  injective on all indices, those of five digits and more included. *)
Theorem batch_identifiers_distinct (pdf_path c : pystr) (s : Store)
    (name : pystr) (documents ids : list pystr)
    (metadatas : list ChunkMeta) :
  In (CollectionAdd name documents ids metadatas)
     (events (process_pdf pdf_path c s)) ->
  NoDup ids
  /\ length ids = length documents
  /\ length metadatas = length documents
  /\ (forall i chunk, documents !! i = Some chunk ->
        ids !! i = Some (c ++ lit "_chunk_" ++ format_04d i)
        /\ metadatas !! i
           = Some {| source := basename pdf_path; chunk_index := i |})
  /\ (forall i j, c ++ lit "_chunk_" ++ format_04d i
                  = c ++ lit "_chunk_" ++ format_04d j -> i = j).
Proof.
  intros H. apply process_pdf_event_kinds in H.
  destruct H as [H|[H|[[t H]|[[chunks H]|H]]]]; try discriminate.
  injection H as -> -> -> ->.
  split; [apply make_ids_NoDup|].
  split; [apply make_ids_length|].
  split; [apply make_metadatas_length|].
  split.
  - intros i chunk Hi. apply lookup_lt_Some in Hi.
    split; [apply make_ids_lookup, Hi|apply make_metadatas_lookup, Hi].
  - intros i j. apply chunk_id_inj.
Qed.

Local Abbreviation source_dir := (source_dir project_dir).
Local Abbreviation present :=
  (fun entry : pystr * pystr => path_exists (path_join source_dir (fst entry))).

Lemma main_loop_missing pdf c rest s :
  path_exists (path_join source_dir pdf) = false ->
  main_loop ((pdf, c) :: rest) s
  = prepend [Print (missing_warning (path_join source_dir pdf))]
            (main_loop rest s).
Proof.
  intros H. cbn [Ingest.main_loop]. rewrite H. cbn [negb].
  unfold print. apply bind_emit.
Qed.

Lemma main_loop_present pdf c rest s :
  path_exists (path_join source_dir pdf) = true ->
  main_loop ((pdf, c) :: rest) s
  = bind (process_pdf (path_join source_dir pdf) c)
         (fun _ => main_loop rest) s.
Proof. intros H. cbn [Ingest.main_loop]. rewrite H. reflexivity. Qed.

Lemma main_loop_present_only entries : forall s,
  res (main_loop entries s) = res (main_loop (List.filter present entries) s)
  /\ final (main_loop entries s)
     = final (main_loop (List.filter present entries) s)
  /\ silent (events (main_loop entries s))
     = silent (events (main_loop (List.filter present entries) s)).
Proof.
  induction entries as [|[pdf c] rest IH]; intros s; [auto|].
  cbn [List.filter fst].
  destruct (path_exists (path_join source_dir pdf)) eqn:Hp.
  - rewrite !main_loop_present by exact Hp. unfold bind.
    destruct (res (process_pdf _ c s)); [|auto].
    cbn [prepend res events final]. unfold silent.
    rewrite !List.filter_app.
    destruct (IH (final (process_pdf (path_join source_dir pdf) c s)))
      as (-> & -> & Hev).
    unfold silent in Hev. rewrite Hev. auto.
  - rewrite main_loop_missing by exact Hp. cbn [prepend res events final app].
    unfold silent. cbn [List.filter is_print negb]. apply IH.
Qed.

Lemma main_loop_event_kinds entries : forall s e,
  In e (events (main_loop entries s)) ->
  is_print e = true
  \/ exists pdf c,
       In (pdf, c) entries
       /\ path_exists (path_join source_dir pdf) = true
       /\ (e = ReadPdf (path_join source_dir pdf)
           \/ (exists t, e = SplitText t)
           \/ event_collection e = Some c).
Proof.
  induction entries as [|[pdf c] rest IH]; intros s e.
  - cbn. tauto.
  - destruct (path_exists (path_join source_dir pdf)) eqn:Hp.
    + rewrite main_loop_present by exact Hp. unfold bind.
      assert (In e (events (process_pdf (path_join source_dir pdf) c s)) ->
              is_print e = true
              \/ exists pdf' c',
                   In (pdf', c') ((pdf, c) :: rest)
                   /\ path_exists (path_join source_dir pdf') = true
                   /\ (e = ReadPdf (path_join source_dir pdf')
                       \/ (exists t, e = SplitText t)
                       \/ event_collection e = Some c')) as Hhere.
      { intros H. apply process_pdf_event_kinds in H.
        destruct H as [H|[H|[H|[[chunks H]|H]]]]; [left; exact H|..];
          right; exists pdf, c; (split; [left; reflexivity|]);
          (split; [exact Hp|]); subst; auto. }
      destruct (res (process_pdf _ c s)); [|exact Hhere].
      cbn [prepend events]. intros H. apply in_app_or in H as [H|H];
        [exact (Hhere H)|].
      apply IH in H as [H|(pdf' & c' & Hin & Hrest)]; [left; exact H|].
      right. exists pdf', c'. split; [right; exact Hin|exact Hrest].
    + rewrite main_loop_missing by exact Hp. cbn [prepend events app In].
      intros [<-|H]; [left; reflexivity|].
      apply IH in H as [H|(pdf' & c' & Hin & Hrest)]; [left; exact H|].
      right. exists pdf', c'. split; [right; exact Hin|exact Hrest].
Qed.

Lemma main_run s :
  main s
  = prepend [ Print (str_mul 61 50);
              Print (lit "Document Ingestion Pipeline");
              Print (str_mul 61 50);
              Print (lit "ChromaDB storage: " ++ CHROMA_PATH module_dir) ]
      match res (main_loop PDF_COLLECTION_MAP s) with
      | Ok _ =>
          prepend (events (main_loop PDF_COLLECTION_MAP s))
            {| res := Ok tt;
               events :=
                 [ Print (nl ++ str_mul 61 50);
                   Print (lit "Document ingestion complete!");
                   Print (lit "Collections created: python_book, java_book, javascript_book");
                   Print (str_mul 61 50) ];
               final := final (main_loop PDF_COLLECTION_MAP s) |}
      | Raise x =>
          {| res := Raise x;
             events := events (main_loop PDF_COLLECTION_MAP s);
             final := final (main_loop PDF_COLLECTION_MAP s) |}
      end.
Proof.
  unfold Ingest.main, print. rewrite !bind_emit.
  change (bind (main_loop PDF_COLLECTION_MAP) ?k s)
    with (match res (main_loop PDF_COLLECTION_MAP s) with
          | Ok a => prepend (events (main_loop PDF_COLLECTION_MAP s))
                            (k a (final (main_loop PDF_COLLECTION_MAP s)))
          | Raise x =>
              {| res := Raise x;
                 events := events (main_loop PDF_COLLECTION_MAP s);
                 final := final (main_loop PDF_COLLECTION_MAP s) |}
          end).
  destruct (res (main_loop PDF_COLLECTION_MAP s)); reflexivity.
Qed.

Lemma main_events s e :
  In e (events (main s)) ->
  is_print e = true \/ In e (events (main_loop PDF_COLLECTION_MAP s)).
Proof.
  rewrite main_run.
  destruct (res (main_loop PDF_COLLECTION_MAP s));
    cbn [prepend events app In]; intros [<-|[<-|[<-|[<-|H]]]]; auto.
  apply in_app_or in H as [H|H]; [auto|].
  cbn [In] in H. repeat (destruct H as [<-|H]; [auto|]). destruct H.
Qed.

Lemma main_all_missing s :
  List.filter present PDF_COLLECTION_MAP = [] ->
  res (main s) = Ok tt /\ final (main s) = s
  /\ silent (events (main s)) = [].
Proof.
  intros Hnone.
  destruct (main_loop_present_only PDF_COLLECTION_MAP s) as (Hr & Hf & He).
  rewrite Hnone in Hr, Hf, He.
  cbn [Ingest.main_loop ret res events final] in Hr, Hf, He.
  rewrite main_run, Hr. cbn [prepend res events final]. rewrite Hf.
  split; [reflexivity|]. split; [reflexivity|].
  unfold silent in *. cbn [app List.filter is_print negb].
  rewrite List.filter_app, He. reflexivity.
Qed.

Lemma collection_names_distinct pdf pdf' c :
  In (pdf, c) PDF_COLLECTION_MAP -> In (pdf', c) PDF_COLLECTION_MAP ->
  pdf = pdf'.
Proof.
  unfold PDF_COLLECTION_MAP. cbn [In].
  intros [H|[H|[H|[]]]] [H'|[H'|[H'|[]]]];
    apply pair_equal_spec in H as [<- <-];
    apply pair_equal_spec in H' as [<- H'];
    first [reflexivity | vm_compute in H'; discriminate].
Qed.

(** C4. An entry whose PDF does not exist makes the loop print the warning
  and go on with the remaining entries, nothing else. The result, the
  final store and all events other than printed lines of a run are those
  of the run over the entries whose file exists. In [main], no PDF is read
  at the missing path and no store operation names the collection of a
  missing entry. When no file exists the run returns normally and leaves
  the store untouched. *)
Theorem missing_pdf_is_skipped :
  (forall pdf c rest s,
      path_exists (path_join source_dir pdf) = false ->
      main_loop ((pdf, c) :: rest) s
      = prepend [Print (missing_warning (path_join source_dir pdf))]
                (main_loop rest s))
  /\ (forall entries s,
        let kept := List.filter present entries in
        res (main_loop entries s) = res (main_loop kept s)
        /\ final (main_loop entries s) = final (main_loop kept s)
        /\ silent (events (main_loop entries s))
           = silent (events (main_loop kept s)))
  /\ (forall pdf c s e,
        In (pdf, c) PDF_COLLECTION_MAP ->
        path_exists (path_join source_dir pdf) = false ->
        In e (events (main s)) ->
        e <> ReadPdf (path_join source_dir pdf)
        /\ event_collection e <> Some c)
  /\ (forall s,
        (forall pdf c, In (pdf, c) PDF_COLLECTION_MAP ->
                       path_exists (path_join source_dir pdf) = false) ->
        res (main s) = Ok tt /\ final (main s) = s
        /\ silent (events (main s)) = []).
Proof.
  split; [exact main_loop_missing|].
  split; [intros entries s; apply main_loop_present_only|].
  split.
  - intros pdf c s e Hin Hmiss He.
    apply main_events in He as [He|He].
    { destruct e; try discriminate. split; discriminate. }
    apply main_loop_event_kinds in He
      as [He|(pdf' & c' & Hin' & Hp' & Hk)].
    { destruct e; try discriminate. split; discriminate. }
    split.
    + intros ->. destruct Hk as [Hk|[[t Hk]|Hk]]; try discriminate.
      injection Hk as Hk. rewrite Hk in Hmiss. congruence.
    + intros Hc. destruct Hk as [->|[[t ->]|Hk]]; try discriminate.
      rewrite Hc in Hk. injection Hk as <-.
      rewrite (collection_names_distinct _ _ _ Hin Hin') in Hmiss.
      congruence.
  - intros s Hall. apply main_all_missing.
    unfold PDF_COLLECTION_MAP in *. cbn [List.filter fst].
    rewrite (Hall (lit "Python.pdf") (lit "python_book")),
      (Hall (lit "Java.pdf") (lit "java_book")),
      (Hall (lit "Javascript.pdf") (lit "javascript_book"))
      by (cbn [In]; auto).
    reflexivity.
Qed.
Lemma lstrip_snoc (l : pystr) (c : Z) :
  is_space c = false -> lstrip (l ++ [c]) <> [].
Proof.
  intros Hc. induction l as [|x l IH]; cbn [app lstrip].
  - rewrite Hc. discriminate.
  - destruct (is_space x); [exact IH|discriminate].
Qed.

Lemma strip_nonspace_head (c : Z) (rest : pystr) :
  is_space c = false -> strip (c :: rest) <> [].
Proof.
  intros Hc. unfold strip. cbn [lstrip]. rewrite Hc.
  unfold rstrip. cbn [rev]. intros H.
  apply (f_equal (@rev Z)) in H. rewrite rev_involutive in H. cbn [rev] in H.
  exact (lstrip_snoc _ _ Hc H).
Qed.

Lemma textless_numbered (pages : list pystr) : forall k,
  List.filter has_text (zip (seq k (length pages)) pages) = [] ->
  Forall (fun t => t = []) pages.
Proof.
  induction pages as [|t rest IH]; intros k H; [constructor|].
  cbn [length seq zip zip_with List.filter] in H.
  unfold has_text at 1 in H. cbn [snd] in H.
  destruct t as [|c t]; [|discriminate].
  constructor; [reflexivity|]. exact (IH _ H).
Qed.

Lemma marked_text_textless (pages : list pystr) :
  Forall (fun t => t = []) pages -> marked_text pages = [].
Proof.
  intros H. unfold marked_text, numbered_pages. generalize 1%nat.
  induction H as [|t rest -> _ IH]; intros k; [reflexivity|].
  cbn [length seq zip zip_with List.filter].
  unfold has_text at 1. cbn [snd length Nat.eqb negb]. apply IH.
Qed.

Lemma marked_text_not_blank (pages : list pystr) :
  ~ Forall (fun t => t = []) pages -> strip (marked_text pages) <> [].
Proof.
  intros Hsome. unfold marked_text, numbered_pages.
  destruct (List.filter has_text (zip (seq 1 (length pages)) pages))
    as [|p ps] eqn:Hf.
  - destruct Hsome. exact (textless_numbered _ _ Hf).
  - cbn [map concat]. unfold marked_page at 1, nl.
    cbn [app]. unfold strip. cbn [lstrip is_space]. cbn [lit app].
    apply (strip_nonspace_head 45). reflexivity.
Qed.

(** X5. For a PDF the reader opens, [process_pdf] takes the "no text" exit
    exactly when no page has any text: then it warns, returns normally and
    leaves the store alone. As soon as one page has text, were it only white
    space, the page marker makes the extracted text non-blank and the
    collection is asked for. *)
Theorem process_pdf_skips_exactly_textless_pdfs (pdf_path c : pystr)
    (pages : list pystr) (s : Store) :
  PdfReader pdf_path = inr pages ->
  (Forall (fun page_text => page_text = []) pages ->
     process_pdf pdf_path c s
     = {| res := Ok tt;
          events :=
            [ Print (nl ++ lit "Processing: " ++ pdf_path);
              Print (lit "  Extracting text from PDF...");
              ReadPdf pdf_path;
              Print (lit "  Warning: No text extracted from " ++ pdf_path) ];
          final := s |})
  /\ (~ Forall (fun page_text => page_text = []) pages ->
        In (SplitText (marked_text pages)) (events (process_pdf pdf_path c s))
        /\ In (GetOrCreateCollection c embedding_model_name (collection_meta c))
              (events (process_pdf pdf_path c s))).
Proof.
  intros Hp. rewrite process_pdf_run, Hp. cbn zeta. split.
  - intros Hall. rewrite (marked_text_textless _ Hall). reflexivity.
  - intros Hsome.
    rewrite (truthy_strip _ (marked_text_not_blank _ Hsome)).
    destruct (fst (get_or_create_collection _ _ _ _));
      [|destruct (fst (collection_add _ _ _ _ _))];
      cbn [events app In]; auto 10.
Qed.

(** X6. [process_pdf] raises nothing of its own: when it ends with an
    exception, this is the exception a collaborator raised, the last thing
    it did is the call that failed (opening the PDF, get-or-create, or the
    add) and the store is as that call left it; nothing is retried, undone
    or printed afterwards. When the reader fails the store is untouched. *)
Theorem process_pdf_failure_is_collaborator_failure (pdf_path c : pystr)
    (s : Store) (e : exn E) :
  res (process_pdf pdf_path c s) = Raise e ->
  exists x, e = Foreign x
    /\ ((PdfReader pdf_path = inl x
         /\ last (events (process_pdf pdf_path c s)) = Some (ReadPdf pdf_path)
         /\ final (process_pdf pdf_path c s) = s)
        \/ (let goc :=
              get_or_create_collection c embedding_model_name
                                       (collection_meta c) s in
            fst goc = Some x
            /\ last (events (process_pdf pdf_path c s))
               = Some (GetOrCreateCollection c embedding_model_name
                                             (collection_meta c))
            /\ final (process_pdf pdf_path c s) = snd goc)
        \/ (exists chunks,
              let goc :=
                get_or_create_collection c embedding_model_name
                                         (collection_meta c) s in
              let add :=
                collection_add c chunks (make_ids c chunks)
                               (make_metadatas pdf_path chunks) (snd goc) in
              fst goc = None /\ fst add = Some x
              /\ last (events (process_pdf pdf_path c s))
                 = Some (CollectionAdd c chunks (make_ids c chunks)
                                       (make_metadatas pdf_path chunks))
              /\ final (process_pdf pdf_path c s) = snd add)).
Proof.
  rewrite process_pdf_run. cbn zeta.
  destruct (PdfReader pdf_path) as [x|pages] eqn:Hp.
  { cbn [res events final]. intros [= <-]. exists x. split; [reflexivity|].
    left. auto. }
  destruct (negb _); [discriminate|].
  destruct (fst (get_or_create_collection _ _ _ _)) as [x|] eqn:Hg.
  { cbn [res events final]. intros [= <-]. exists x. split; [reflexivity|].
    right; left. cbn zeta. auto. }
  destruct (fst (collection_add _ _ _ _ _)) as [x|] eqn:Ha; [|discriminate].
  cbn [res events final]. intros [= <-]. exists x. split; [reflexivity|].
  right; right. exists (split_text (marked_text pages)). cbn zeta.
  split; [reflexivity|]. split; [exact Ha|]. auto.
Qed.

(** X7. There is no per-document isolation in the loop of [main]: when the
    file of the first entry exists and processing it raises, the loop ends
    there with that exception; what it did and the store it leaves are those
    of the failed [process_pdf], so no later entry is looked at. *)
Theorem main_loop_stops_at_first_failure (pdf c : pystr)
    (rest : list (pystr * pystr)) (s : Store) (e : exn E) :
  path_exists (path_join source_dir pdf) = true ->
  res (process_pdf (path_join source_dir pdf) c s) = Raise e ->
  main_loop ((pdf, c) :: rest) s
  = {| res := Raise e;
       events := events (process_pdf (path_join source_dir pdf) c s);
       final := final (process_pdf (path_join source_dir pdf) c s) |}.
Proof.
  intros Hp He. rewrite main_loop_present by exact Hp.
  unfold bind. rewrite He. reflexivity.
Qed.

(** X8. [main] frames the loop with fixed lines. It returns what the loop
    returns; when the loop raises, nothing is printed after it; when the
    loop completes, the closing lines follow, among them the line
    "Collections created: python_book, java_book, javascript_book", which
    does not depend on which files were found. *)
Theorem main_frames_the_loop (s : Store) :
  let loop := main_loop PDF_COLLECTION_MAP s in
  let opening :=
    [ Print (str_mul 61 50);
      Print (lit "Document Ingestion Pipeline");
      Print (str_mul 61 50);
      Print (lit "ChromaDB storage: " ++ CHROMA_PATH module_dir) ] in
  let closing :=
    [ Print (nl ++ str_mul 61 50);
      Print (lit "Document ingestion complete!");
      Print (lit "Collections created: python_book, java_book, javascript_book");
      Print (str_mul 61 50) ] in
  res (main s) = res loop
  /\ final (main s) = final loop
  /\ events (main s)
     = opening ++ events loop
       ++ match res loop with Ok _ => closing | Raise _ => [] end.
Proof.
  intros loop opening closing. rewrite main_run. fold loop.
  destruct (res loop) as [[]|x]; cbn [prepend res events final].
  - auto.
  - rewrite app_nil_r. auto.
Qed.

Lemma basename_go_no_slash (name : pystr) : forall acc,
  forallb (fun ch => negb (ch =? slash)) name = true ->
  basename_go name acc = rev acc ++ name.
Proof.
  induction name as [|ch name IH]; intros acc H; cbn [basename_go].
  - rewrite app_nil_r. reflexivity.
  - cbn [forallb] in H. apply andb_prop in H as [Hch Hrest].
    apply negb_true_iff in Hch. rewrite Hch, IH by exact Hrest.
    cbn [rev]. rewrite <- app_assoc. reflexivity.
Qed.

Lemma basename_path_join (dir name : pystr) :
  forallb (fun ch => negb (ch =? slash)) name = true ->
  basename (path_join dir name) = name.
Proof.
  intros H. unfold basename, path_join. generalize (@nil Z) as acc.
  induction dir as [|ch dir IH]; intros acc; cbn [app basename_go].
  - rewrite Z.eqb_refl. apply (basename_go_no_slash name [] H).
  - destruct (ch =? slash); apply IH.
Qed.

Lemma main_loop_adds entries : forall s name documents ids metadatas,
  In (CollectionAdd name documents ids metadatas)
     (events (main_loop entries s)) ->
  exists pdf,
    In (pdf, name) entries
    /\ path_exists (path_join source_dir pdf) = true
    /\ ids = make_ids name documents
    /\ metadatas = make_metadatas (path_join source_dir pdf) documents.
Proof.
  induction entries as [|[pdf c] rest IH];
    intros s name documents ids metadatas; [intros []|].
  destruct (path_exists (path_join source_dir pdf)) eqn:Hp.
  - rewrite main_loop_present by exact Hp. unfold bind.
    assert (In (CollectionAdd name documents ids metadatas)
               (events (process_pdf (path_join source_dir pdf) c s)) ->
            exists pdf',
              In (pdf', name) ((pdf, c) :: rest)
              /\ path_exists (path_join source_dir pdf') = true
              /\ ids = make_ids name documents
              /\ metadatas
                 = make_metadatas (path_join source_dir pdf') documents)
      as Hhere.
    { intros H. apply process_pdf_event_kinds in H.
      destruct H as [H|[H|[[t H]|[[chunks H]|H]]]]; try discriminate.
      injection H as -> -> -> ->. exists pdf.
      split; [left; reflexivity|]. auto. }
    destruct (res (process_pdf _ c s)); [|exact Hhere].
    cbn [prepend events]. intros H. apply in_app_or in H as [H|H];
      [exact (Hhere H)|].
    apply IH in H as (pdf' & Hin & Hrest).
    exists pdf'. split; [right; exact Hin|exact Hrest].
  - rewrite main_loop_missing by exact Hp. cbn [prepend events app In].
    intros [H|H]; [discriminate|].
    apply IH in H as (pdf' & Hin & Hrest).
    exists pdf'. split; [right; exact Hin|exact Hrest].
Qed.

(** X9. Every batch that [main] sends to the store goes to the collection of
    a mapping entry whose file exists, carries the identifiers derived from
    that collection name, and each of its metadata records names, as source,
    the entry's file name (without the directory) together with the record's
    own position as chunk index. *)
Theorem main_batches_follow_the_mapping (s : Store) (name : pystr)
    (documents ids : list pystr) (metadatas : list ChunkMeta) :
  In (CollectionAdd name documents ids metadatas) (events (main s)) ->
  exists pdf,
    In (pdf, name) PDF_COLLECTION_MAP
    /\ path_exists (path_join source_dir pdf) = true
    /\ ids = make_ids name documents
    /\ forall i m, metadatas !! i = Some m ->
         source m = pdf /\ chunk_index m = i.
Proof.
  intros H. apply main_events in H as [H|H]; [discriminate|].
  apply main_loop_adds in H as (pdf & Hin & Hp & Hids & Hm).
  exists pdf. split; [exact Hin|]. split; [exact Hp|]. split; [exact Hids|].
  intros i m Hi. subst metadatas.
  assert (i < length documents)%nat as Hlt.
  { apply lookup_lt_Some in Hi. rewrite make_metadatas_length in Hi. exact Hi. }
  rewrite make_metadatas_lookup in Hi by exact Hlt. injection Hi as <-.
  cbn [source chunk_index]. split; [|reflexivity].
  apply basename_path_join.
  unfold PDF_COLLECTION_MAP in Hin. cbn [In] in Hin.
  destruct Hin as [Hin|[Hin|[Hin|[]]]];
    apply pair_equal_spec in Hin as [<- _]; reflexivity.
Qed.

(** X13. When every file of the entries exists, opens and has some text, and
    the store accepts every call, the loop of [main] returns normally and
    its store operations are, entry by entry in the order of the mapping, a
    get-or-create of the entry's collection, described as the code
    documentation collection of that name, followed by one add to it of the
    chunks of the entry's text with their identifiers and metadata. (The
    creation time in the collection metadata is left open.) *)
Theorem main_loop_ingests_in_order (entries : list (pystr * pystr))
    (s : Store) :
  (forall name model metadata st,
      fst (get_or_create_collection name model metadata st) = None) ->
  (forall name documents ids metadatas st,
      fst (collection_add name documents ids metadatas st) = None) ->
  Forall (fun entry =>
            path_exists (path_join source_dir (fst entry)) = true
            /\ exists pages,
                 PdfReader (path_join source_dir (fst entry)) = inr pages
                 /\ ~ Forall (fun page_text => page_text = []) pages)
         entries ->
  res (main_loop entries s) = Ok tt
  /\ exists metadata_of : list CollectionMeta,
       Forall2 (fun entry metadata =>
                  description metadata
                  = lit "Code documentation collection for " ++ snd entry)
               entries metadata_of
       /\ store_events (events (main_loop entries s))
          = flat_map
              (fun entry_metadata =>
                 let pdf_path :=
                   path_join source_dir (fst (fst entry_metadata)) in
                 let collection_name := snd (fst entry_metadata) in
                 let chunks :=
                   match PdfReader pdf_path with
                   | inr pages => split_text (marked_text pages)
                   | inl _ => []
                   end in
                 [ GetOrCreateCollection collection_name embedding_model_name
                                         (snd entry_metadata);
                   CollectionAdd collection_name chunks
                                 (make_ids collection_name chunks)
                                 (make_metadatas pdf_path chunks) ])
              (zip entries metadata_of).
Proof.
  intros Hgoc Hadd Hall. revert s.
  induction Hall as [|[pdf c] rest (Hp & pages & Hr & Htext) _ IH]; intros s.
  { split; [reflexivity|]. exists []. split; [constructor|reflexivity]. }
  cbn [fst] in Hp, Hr. rewrite main_loop_present by exact Hp.
  unfold bind. rewrite process_pdf_run, Hr. cbn zeta.
  rewrite (truthy_strip _ (marked_text_not_blank _ Htext)), Hgoc, Hadd.
  cbn [res events final prepend].
  destruct (IH (snd (collection_add c (split_text (marked_text pages))
                       (make_ids c (split_text (marked_text pages)))
                       (make_metadatas (path_join source_dir pdf)
                          (split_text (marked_text pages)))
                       (snd (get_or_create_collection c embedding_model_name
                               (collection_meta c) s)))))
    as (IHr & metas & Hdesc & IHe).
  split; [exact IHr|].
  exists (collection_meta c :: metas).
  split; [constructor; [reflexivity|exact Hdesc]|].
  cbn [zip zip_with flat_map fst snd]. cbn zeta. rewrite Hr.
  unfold store_events in *. rewrite List.filter_app, IHe.
  reflexivity.
Qed.

End PipelineFacts.


Section Reingestion.
Import Ingest.
Variable PdfReader : pystr -> StoreError + list pystr.
Variable splitter_split_text : nat -> nat -> pystr -> list pystr.
Variable now : pystr.

Local Abbreviation process_pdf :=
  (process_pdf PdfReader splitter_split_text now strict_get_or_create
               strict_add).
Local Abbreviation split_text := (text_splitter_split_text splitter_split_text).
Local Abbreviation collection_meta := (collection_meta now).

Lemma add_records_kept recs : forall col col',
  add_records col recs = inr col' ->
  (forall id r, col !! id = Some r -> col' !! id = Some r)
  /\ (forall id, In id (map fst recs) -> is_Some (col' !! id)).
Proof.
  induction recs as [|[id0 r0] rest IH]; intros col col' H.
  - injection H as <-. split; [auto|]. intros id [].
  - cbn [add_records] in H. destruct (col !! id0) eqn:H0; [discriminate|].
    apply IH in H as [Hkeep Hnew]. split.
    + intros id r Hid. apply Hkeep.
      rewrite lookup_insert_ne; [exact Hid|]. congruence.
    + intros id [<-|Hin]; [|auto]. cbn [fst].
      exists r0. apply Hkeep, lookup_insert_eq.
Qed.

Lemma add_records_duplicate recs : forall col id,
  In id (map fst recs) -> is_Some (col !! id) ->
  exists id', In id' (map fst recs) /\ add_records col recs = inl id'.
Proof.
  induction recs as [|[id0 r0] rest IH]; intros col id Hin Hsome;
    [destruct Hin|].
  cbn [add_records]. destruct (col !! id0) eqn:H0.
  - exists id0. split; [left; reflexivity|reflexivity].
  - destruct Hin as [Heq|Hin].
    { cbn [fst] in Heq. subst id0. rewrite H0 in Hsome.
      destruct Hsome; discriminate. }
    destruct (IH (<[id0:=r0]> col) id Hin) as (id' & Hin' & Hadd).
    { destruct (decide (id0 = id)) as [->|Hne].
      - rewrite lookup_insert_eq. eauto.
      - rewrite lookup_insert_ne by exact Hne. exact Hsome. }
    exists id'. split; [right; exact Hin'|exact Hadd].
Qed.

Lemma strict_get_or_create_kept name emb meta s :
  fst (strict_get_or_create name emb meta s) = None
  /\ is_Some (snd (strict_get_or_create name emb meta s) !! name)
  /\ (forall n id r, record_in s n id r ->
        record_in (snd (strict_get_or_create name emb meta s)) n id r)
  /\ (is_Some (s !! name) ->
        snd (strict_get_or_create name emb meta s) = s).
Proof.
  unfold strict_get_or_create. destruct (s !! name) as [col|] eqn:Hs;
    cbn [fst snd].
  - split; [reflexivity|]. split; [rewrite Hs; eauto|]. auto.
  - split; [reflexivity|]. split; [rewrite lookup_insert_eq; eauto|].
    split; [|intros [? ?]; discriminate].
    intros n id r (col & Hn & Hid). exists col. split; [|exact Hid].
    rewrite lookup_insert_ne; [exact Hn|]. congruence.
Qed.

Lemma strict_add_kept (name : pystr) (docs ids : list pystr)
    (metas : list ChunkMeta) (s : StrictStore) :
  forall n id r, record_in s n id r ->
    record_in (snd (strict_add name docs ids metas s)) n id r.
Proof.
  intros n id r Hrec. unfold strict_add.
  destruct (s !! name) as [col|] eqn:Hs; [|exact Hrec].
  destruct (add_records col _) as [dup|col'] eqn:Hadd; [exact Hrec|].
  cbn [snd]. destruct Hrec as (col0 & Hn & Hid).
  destruct (decide (name = n)) as [->|Hne].
  - exists col'. rewrite lookup_insert_eq. split; [reflexivity|].
    rewrite Hs in Hn. injection Hn as <-.
    apply (add_records_kept _ _ _ Hadd). exact Hid.
  - exists col0. rewrite lookup_insert_ne by exact Hne. auto.
Qed.

Lemma batch_keys (ids docs : list pystr) (metas : list ChunkMeta) :
  length ids = length docs -> length metas = length docs ->
  map fst (zip ids (zip docs metas)) = ids.
Proof.
  intros H1 H2. change (map fst ?l) with (l.*1).
  apply fst_zip. rewrite length_zip. lia.
Qed.

Lemma strict_add_twice (name : pystr) (docs ids : list pystr)
    (metas : list ChunkMeta) (s : StrictStore) :
  is_Some (s !! name) -> ids <> [] ->
  length ids = length docs -> length metas = length docs ->
  let s' := snd (strict_add name docs ids metas s) in
  is_Some (s' !! name)
  /\ exists id, In id ids
       /\ strict_add name docs ids metas s' = (Some (DuplicateIDError id), s').
Proof.
  intros [col Hs] Hne Hl1 Hl2. unfold strict_add at 1. rewrite Hs.
  pose proof (batch_keys ids docs metas Hl1 Hl2) as Hkeys.
  destruct (add_records col _) as [dup|col'] eqn:Hadd; cbn [snd].
  - split; [rewrite Hs; eauto|].
    assert (In dup ids) as Hin.
    { rewrite <- Hkeys. clear -Hadd. revert col Hadd.
      induction (zip ids (zip docs metas)) as [|[id0 r0] rest IH];
        intros col Hadd; [discriminate|].
      cbn [add_records] in Hadd. destruct (col !! id0).
      - injection Hadd as <-. left. reflexivity.
      - right. eapply IH, Hadd. }
    exists dup. split; [exact Hin|].
    unfold strict_add. rewrite Hs, Hadd. reflexivity.
  - split; [rewrite lookup_insert_eq; eauto|].
    destruct ids as [|id0 ids']; [congruence|].
    destruct (add_records_duplicate (zip (id0 :: ids') (zip docs metas))
                col' id0) as (id' & Hin' & Hdup).
    { rewrite Hkeys. left. reflexivity. }
    { apply (add_records_kept _ _ _ Hadd). rewrite Hkeys. left. reflexivity. }
    exists id'. split; [rewrite <- Hkeys; exact Hin'|].
    unfold strict_add. rewrite lookup_insert_eq, Hdup. reflexivity.
Qed.

Lemma strict_process_pdf_run (pdf_path c : pystr) (pages : list pystr)
    (s : StrictStore) :
  PdfReader pdf_path = inr pages ->
  strip (marked_text pages) <> [] ->
  let chunks := split_text (marked_text pages) in
  let s1 :=
    snd (strict_get_or_create c embedding_model_name (collection_meta c) s) in
  let add :=
    strict_add c chunks (make_ids c chunks) (make_metadatas pdf_path chunks)
               s1 in
  res (process_pdf pdf_path c s)
  = match fst add with Some x => Raise (Foreign x) | None => Ok tt end
  /\ final (process_pdf pdf_path c s) = snd add
  /\ store_events (events (process_pdf pdf_path c s))
     = [ GetOrCreateCollection c embedding_model_name (collection_meta c);
         CollectionAdd c chunks (make_ids c chunks)
                       (make_metadatas pdf_path chunks) ].
Proof.
  intros Hp Hs chunks s1 add.
  rewrite process_pdf_run, Hp. cbn zeta. rewrite (truthy_strip _ Hs).
  destruct (strict_get_or_create_kept c embedding_model_name
              (collection_meta c) s) as (-> & _).
  fold chunks s1 add. destruct (fst add); auto.
Qed.

(** C5. On a store that rejects an identifier it already holds, running
  [process_pdf] a second time for the same PDF and collection asks the
  store for a get-or-create followed by one batch add and for nothing
  else; every record present before a run is present after it; and the
  second run ends with the store's duplicate-identifier error for one of
  the batch's identifiers. *)
Theorem reingestion_is_not_idempotent (pdf_path c : pystr)
    (pages : list pystr) (s : StrictStore) :
  PdfReader pdf_path = inr pages ->
  strip (marked_text pages) <> [] ->
  split_text (marked_text pages) <> [] ->
  let chunks := split_text (marked_text pages) in
  let first := process_pdf pdf_path c s in
  let second := process_pdf pdf_path c (final first) in
  store_events (events second)
  = [ GetOrCreateCollection c embedding_model_name (collection_meta c);
      CollectionAdd c chunks (make_ids c chunks)
                    (make_metadatas pdf_path chunks) ]
  /\ (forall name id r, record_in s name id r ->
        record_in (final first) name id r)
  /\ (forall name id r, record_in (final first) name id r ->
        record_in (final second) name id r)
  /\ exists id, In id (make_ids c chunks)
                /\ res second = Raise (Foreign (DuplicateIDError id)).
Proof.
  intros Hp Hs Hne chunks first second.
  pose proof (strict_process_pdf_run pdf_path c pages s Hp Hs)
    as (_ & Hf1 & _).
  pose proof (strict_process_pdf_run pdf_path c pages (final first) Hp Hs)
    as (Hr2 & Hf2 & He2).
  cbn zeta in Hf1, Hr2, Hf2, He2. fold chunks first in Hf1, Hr2, Hf2, He2.
  fold second in Hr2, Hf2, He2.
  destruct (strict_get_or_create_kept c embedding_model_name
              (collection_meta c) s) as (_ & Hc1 & Hk1 & _).
  destruct (strict_add_twice c chunks (make_ids c chunks)
              (make_metadatas pdf_path chunks) _ Hc1)
    as (Hc2 & id & Hin & Hdup).
  { intros H. apply (f_equal length) in H.
    rewrite make_ids_length in H. apply Hne, nil_length_inv, H. }
  { apply make_ids_length. }
  { apply make_metadatas_length. }
  rewrite <- Hf1 in Hc2, Hdup.
  destruct (strict_get_or_create_kept c embedding_model_name
              (collection_meta c) (final first)) as (_ & _ & _ & Hsame).
  rewrite (Hsame Hc2) in Hr2, Hf2. rewrite Hdup in Hr2, Hf2.
  cbn [fst snd] in Hr2, Hf2.
  split; [exact He2|]. split; [|split].
  - intros name i r Hrec. rewrite Hf1. apply strict_add_kept, Hk1, Hrec.
  - intros name i r Hrec. rewrite Hf2. exact Hrec.
  - exists id. split; [exact Hin|exact Hr2].
Qed.
Lemma add_records_fresh recs : forall col : Collection,
  NoDup (map fst recs) ->
  (forall id, In id (map fst recs) -> col !! id = None) ->
  exists col',
    add_records col recs = inr col'
    /\ (forall i id r, recs !! i = Some (id, r) -> col' !! id = Some r)
    /\ (forall id, ~ In id (map fst recs) -> col' !! id = col !! id).
Proof.
  induction recs as [|[id0 r0] rest IH]; intros col Hnd Hfresh.
  - exists col. split; [reflexivity|]. split; [|reflexivity].
    intros i id r H. destruct i; discriminate.
  - cbn [map fst] in Hnd. apply NoDup_cons in Hnd as [Hnotin Hnd].
    cbn [add_records]. rewrite (Hfresh id0) by (left; reflexivity).
    destruct (IH (<[id0:=r0]> col) Hnd) as (col' & Hadd & Hin & Hout).
    { intros id Hid. rewrite lookup_insert_ne.
      - apply Hfresh. right. exact Hid.
      - intros ->. apply Hnotin, list_elem_of_In, Hid. }
    exists col'. split; [exact Hadd|]. split.
    + intros [|i] id r H.
      * cbn in H. injection H as <- <-. rewrite Hout.
        -- apply lookup_insert_eq.
        -- intros Hid. apply Hnotin, list_elem_of_In, Hid.
      * apply (Hin i). exact H.
    + intros id Hid. rewrite Hout.
      * apply lookup_insert_ne. intros ->. apply Hid. left. reflexivity.
      * intros Hid'. apply Hid. right. exact Hid'.
Qed.

(** X15. On a store that rejects known identifiers and has no collection of
    the name yet, ingesting a PDF with some text succeeds, and afterwards
    the collection holds, under the identifier of each chunk index, that
    chunk with the metadata source: base file name, chunk_index: index; it
    holds nothing under any other identifier. *)
Theorem first_ingestion_stores_every_chunk (pdf_path c : pystr)
    (pages : list pystr) (s : StrictStore) :
  PdfReader pdf_path = inr pages ->
  strip (marked_text pages) <> [] ->
  s !! c = None ->
  let chunks := split_text (marked_text pages) in
  let after := final (process_pdf pdf_path c s) in
  res (process_pdf pdf_path c s) = Ok tt
  /\ (forall i chunk, chunks !! i = Some chunk ->
        record_in after c (c ++ lit "_chunk_" ++ format_04d i)
                  (chunk, {| source := basename pdf_path; chunk_index := i |}))
  /\ (forall id r, record_in after c id r ->
        exists i, (i < length chunks)%nat
                  /\ id = c ++ lit "_chunk_" ++ format_04d i).
Proof.
  intros Hp Hs Hc chunks after.
  pose proof (strict_process_pdf_run pdf_path c pages s Hp Hs)
    as (Hres & Hfin & _).
  cbn zeta in Hres, Hfin. fold chunks in Hres, Hfin.
  subst after. rewrite Hres, Hfin. clear Hres Hfin.
  unfold strict_get_or_create, strict_add. rewrite Hc. cbn [snd].
  rewrite lookup_insert_eq.
  pose proof (batch_keys (make_ids c chunks) chunks
                (make_metadatas pdf_path chunks) (make_ids_length c chunks)
                (make_metadatas_length pdf_path chunks)) as Hkeys.
  destruct (add_records_fresh
              (zip (make_ids c chunks)
                   (zip chunks (make_metadatas pdf_path chunks))) ∅)
    as (col' & Hadd & Hin & Hout).
  { rewrite Hkeys. apply make_ids_NoDup. }
  { intros id _. apply lookup_empty. }
  rewrite Hadd. cbn [fst snd]. split; [reflexivity|]. split.
  - intros i chunk Hi. exists col'. rewrite lookup_insert_eq.
    split; [reflexivity|]. apply (Hin i).
    pose proof (lookup_lt_Some _ _ _ Hi) as Hlt.
    apply lookup_zip_with_Some.
    exists (chunk_id c i), (chunk, {| source := basename pdf_path;
                                      chunk_index := i |}).
    split; [reflexivity|]. split; [apply make_ids_lookup, Hlt|].
    apply lookup_zip_with_Some.
    exists chunk, {| source := basename pdf_path; chunk_index := i |}.
    split; [reflexivity|]. split; [exact Hi|].
    apply make_metadatas_lookup, Hlt.
  - intros id r (col & Hcol & Hid). rewrite lookup_insert_eq in Hcol.
    injection Hcol as <-.
    destruct (decide (id ∈ make_ids c chunks)) as [Hmem|Hnot].
    + apply list_elem_of_lookup in Hmem as [i Hi].
      pose proof (lookup_lt_Some _ _ _ Hi) as Hlt.
      rewrite make_ids_length in Hlt.
      rewrite make_ids_lookup in Hi by exact Hlt. injection Hi as <-.
      exists i. split; [exact Hlt|reflexivity].
    + rewrite Hout in Hid.
      * rewrite lookup_empty in Hid. discriminate.
      * rewrite Hkeys. intros H. apply Hnot, list_elem_of_In, H.
Qed.

End Reingestion.

(** ** The theorems at concrete inputs *)
Section Witnesses.
Import Ingest Samples.

Lemma render_answer_prompt_validates_witness :
  PromptRenderer.render_answer_prompt sample_dir echo_poml
    (lit "invalid_tech") (lit "q") (lit "ctx") (lit "en") []
    (PromptRenderer.exec_all sample_dir echo_poml [] (PromptRenderer.init 0%nat))
  = (Raise (ValueError
       (lit "Invalid technique: " ++ lit "invalid_tech"
        ++ lit ". Must be one of ['zero_shot', 'few_shot', 'cot', 'advanced']")),
     PromptRenderer.exec_all sample_dir echo_poml [] (PromptRenderer.init 0%nat)).
Proof.
  apply (proj1 (render_answer_prompt_validates sample_dir echo_poml [] 0%nat
                  (lit "invalid_tech") (lit "q") (lit "ctx") (lit "en") [])).
  intros H. apply list_elem_of_In in H. vm_compute in H.
  repeat (destruct H as [H|H]; [discriminate|]). exact H.
Defined.

Lemma responses_list_labels_witness :
  exists entry,
    PromptRenderer.build_responses_list
      [ {[ lit "model_name" := VStr (lit "gpt") ]};
        {[ lit "technique_name" := VStr (lit "cot") ]}; ∅ ] !! 2%nat
    = Some entry
    /\ PromptRenderer.label entry = VStr (lit "Item 3")
    /\ PromptRenderer.response entry = VStr [].
Proof.
  destruct (responses_list_labels sample_dir echo_poml (lit "Q")
              (lit "accuracy")
              [ {[ lit "model_name" := VStr (lit "gpt") ]};
                {[ lit "technique_name" := VStr (lit "cot") ]}; ∅ ]
              (PromptRenderer.init 0%nat)) as (_ & _ & H & _).
  destruct (H 2%nat ∅ eq_refl) as (entry & He & Hl & Hr).
  exists entry. split; [exact He|]. split; [exact Hl|exact Hr].
Defined.

Lemma falsy_model_name_is_skipped_witness :
  exists entry,
    PromptRenderer.build_responses_list unnamed_records !! 0%nat = Some entry
    /\ PromptRenderer.label entry = VStr (lit "Item 1").
Proof.
  destruct (falsy_model_name_is_skipped unnamed_records 0
              {[ lit "model_name" := VStr [] ]} (VStr [])
              eq_refl eq_refl eq_refl) as (entry & He & Hl & _).
  exists entry. split; [exact He|exact Hl].
Defined.

Lemma extract_text_from_pdf_marks_pages_witness :
  extract_text_from_pdf three_pages python_pdf_path (∅ : StrictStore)
  = {| res := Ok (marked_text sample_pages);
       events := [ReadPdf python_pdf_path];
       final := ∅ |}.
Proof.
  apply (extract_text_from_pdf_marks_pages three_pages python_pdf_path
           sample_pages ∅).
  reflexivity.
Defined.

Lemma unencodable_characters_are_dropped_witness :
  clean_text (E:=StoreError) (lit "ab" ++ 55296 :: lit "c")
  = clean_text (E:=StoreError) (lit "ab" ++ lit "c").
Proof.
  apply (proj1 (proj2 (proj2 (proj2
           (unencodable_characters_are_dropped (E:=StoreError)))))).
  reflexivity.
Defined.

Lemma process_pdf_stores_one_record_per_chunk_witness :
  let chunks := halves 500 50 (marked_text sample_pages) in
  let run := sample_process_pdf python_pdf_path (lit "python_book") ∅ in
  exists ids metadatas,
    store_events (events run)
    = [ GetOrCreateCollection (lit "python_book") embedding_model_name
                              (collection_meta sample_now (lit "python_book"));
        CollectionAdd (lit "python_book") chunks ids metadatas ]
    /\ length ids = length chunks
    /\ length metadatas = length chunks
    /\ (forall i, (i < length chunks)%nat ->
          ids !! i = Some (lit "python_book" ++ lit "_chunk_" ++ format_04d i)
          /\ metadatas !! i
             = Some {| source := basename python_pdf_path;
                       chunk_index := i |})
    /\ final run
       = snd (strict_add (lit "python_book") chunks ids metadatas
                (snd (strict_get_or_create
                        (lit "python_book") embedding_model_name
                        (collection_meta sample_now (lit "python_book")) ∅)))
    /\ res run
       = match fst (strict_add (lit "python_book") chunks ids metadatas
                      (snd (strict_get_or_create
                              (lit "python_book") embedding_model_name
                              (collection_meta sample_now (lit "python_book"))
                              ∅))) with
         | Some x => Raise (Foreign x)
         | None => Ok tt
         end.
Proof.
  apply (process_pdf_stores_one_record_per_chunk three_pages halves sample_now
           strict_get_or_create strict_add python_pdf_path (lit "python_book")
           (marked_text sample_pages) ∅).
  - reflexivity.
  - vm_compute. discriminate.
  - reflexivity.
Defined.

Lemma batch_identifiers_distinct_witness :
  let chunks := halves 500 50 (marked_text sample_pages) in
  NoDup (make_ids (lit "python_book") chunks)
  /\ length (make_ids (lit "python_book") chunks) = length chunks.
Proof.
  intros chunks.
  destruct (batch_identifiers_distinct three_pages halves sample_now
              strict_get_or_create strict_add python_pdf_path
              (lit "python_book") ∅ (lit "python_book") chunks
              (make_ids (lit "python_book") chunks)
              (make_metadatas python_pdf_path chunks)) as (Hd & Hl & _).
  - vm_compute. do 8 right. left. reflexivity.
  - split; [exact Hd|exact Hl].
Defined.

Lemma missing_pdf_is_skipped_witness :
  res (sample_main nothing_exists ∅) = Ok tt
  /\ final (sample_main nothing_exists ∅) = ∅
  /\ silent (events (sample_main nothing_exists ∅)) = [].
Proof.
  apply (proj2 (proj2 (proj2
           (missing_pdf_is_skipped sample_dir sample_dir nothing_exists
              three_pages halves sample_now strict_get_or_create strict_add)))).
  intros pdf c _. reflexivity.
Defined.

Lemma reingestion_is_not_idempotent_witness :
  let chunks := halves 500 50 (marked_text sample_pages) in
  let first := sample_process_pdf python_pdf_path (lit "python_book") ∅ in
  let second :=
    sample_process_pdf python_pdf_path (lit "python_book") (final first) in
  store_events (events second)
  = [ GetOrCreateCollection (lit "python_book") embedding_model_name
                            (collection_meta sample_now (lit "python_book"));
      CollectionAdd (lit "python_book") chunks
                    (make_ids (lit "python_book") chunks)
                    (make_metadatas python_pdf_path chunks) ]
  /\ (forall name id r, record_in ∅ name id r ->
        record_in (final first) name id r)
  /\ (forall name id r, record_in (final first) name id r ->
        record_in (final second) name id r)
  /\ exists id, In id (make_ids (lit "python_book") chunks)
                /\ res second = Raise (Foreign (DuplicateIDError id)).
Proof.
  apply (reingestion_is_not_idempotent three_pages halves sample_now
           python_pdf_path (lit "python_book") sample_pages ∅).
  - reflexivity.
  - vm_compute. discriminate.
  - discriminate.
Defined.

Lemma labels_are_truthy_witness :
  truthy (PromptRenderer.label
            {| PromptRenderer.label := VStr (lit "Item 1");
               PromptRenderer.response := VStr [] |}) = true.
Proof.
  apply (labels_are_truthy unnamed_records). vm_compute. left. reflexivity.
Defined.

Lemma renders_are_well_formed_witness :
  PromptRenderer.ANSWER_POML sample_dir = PromptRenderer.ANSWER_POML sample_dir
  /\ lit "cot" ∈ [lit "zero_shot"; lit "few_shot"; lit "cot"; lit "advanced"].
Proof.
  apply (renders_are_well_formed sample_dir echo_poml
           [PromptRenderer.CallAnswer (lit "nope") (lit "q") [] (lit "en") [];
            PromptRenderer.CallAnswer (lit "cot") (lit "q") [] (lit "en") []]
           0%nat (PromptRenderer.ANSWER_POML sample_dir)
           (PromptRenderer.AnswerContext (lit "cot") (lit "q") [] (lit "en")
                                         [])).
  vm_compute. left. reflexivity.
Defined.

Lemma process_pdf_skips_exactly_textless_pdfs_witness :
  process_pdf no_text_pages halves sample_now strict_get_or_create strict_add
              python_pdf_path (lit "python_book") ∅
  = {| res := Ok tt;
       events :=
         [ Print (nl ++ lit "Processing: " ++ python_pdf_path);
           Print (lit "  Extracting text from PDF...");
           ReadPdf python_pdf_path;
           Print (lit "  Warning: No text extracted from " ++ python_pdf_path) ];
       final := ∅ |}.
Proof.
  apply (proj1 (process_pdf_skips_exactly_textless_pdfs no_text_pages halves
                  sample_now strict_get_or_create strict_add python_pdf_path
                  (lit "python_book") [[]; []] ∅ eq_refl)).
  repeat constructor.
Defined.

Lemma process_pdf_failure_is_collaborator_failure_witness :
  exists x : StoreError,
    Foreign (DuplicateIDError (lit "python_book_chunk_0000")) = Foreign x.
Proof.
  destruct (process_pdf_failure_is_collaborator_failure three_pages halves
              sample_now strict_get_or_create strict_add python_pdf_path
              (lit "python_book")
              (final (sample_process_pdf python_pdf_path (lit "python_book") ∅))
              (Foreign (DuplicateIDError (lit "python_book_chunk_0000"))))
    as (x & Hx & _).
  - vm_compute. reflexivity.
  - exists x. exact Hx.
Defined.

Lemma main_loop_stops_at_first_failure_witness :
  let s := final (sample_process_pdf python_pdf_path (lit "python_book") ∅) in
  let path := path_join (source_dir sample_dir) (lit "Python.pdf") in
  main_loop sample_dir only_python three_pages halves sample_now
            strict_get_or_create strict_add
            [ (lit "Python.pdf", lit "python_book");
              (lit "Java.pdf", lit "java_book") ] s
  = {| res := Raise (Foreign (DuplicateIDError (lit "python_book_chunk_0000")));
       events := events (sample_process_pdf path (lit "python_book") s);
       final := final (sample_process_pdf path (lit "python_book") s) |}.
Proof.
  intros s path.
  apply (main_loop_stops_at_first_failure sample_dir only_python three_pages
           halves sample_now strict_get_or_create strict_add
           (lit "Python.pdf") (lit "python_book")
           [(lit "Java.pdf", lit "java_book")] s
           (Foreign (DuplicateIDError (lit "python_book_chunk_0000")))).
  - reflexivity.
  - vm_compute. reflexivity.
Defined.

Lemma main_batches_follow_the_mapping_witness :
  let chunks := halves 500 50 (marked_text sample_pages) in
  exists pdf,
    In (pdf, lit "python_book") PDF_COLLECTION_MAP
    /\ only_python (path_join (source_dir sample_dir) pdf) = true.
Proof.
  intros chunks.
  destruct (main_batches_follow_the_mapping sample_dir sample_dir only_python
              three_pages halves sample_now strict_get_or_create strict_add
              ∅ (lit "python_book") chunks
              (make_ids (lit "python_book") chunks)
              (make_metadatas python_pdf_path chunks))
    as (pdf & Hin & Hp & _).
  - vm_compute. do 12 right. left. reflexivity.
  - exists pdf. split; [exact Hin|exact Hp].
Defined.

Lemma main_loop_ingests_in_order_witness :
  let run :=
    main_loop sample_dir everything_exists three_pages halves sample_now
              counting_get_or_create counting_add PDF_COLLECTION_MAP 0%nat in
  res run = Ok tt
  /\ exists metadata_of : list CollectionMeta,
       length metadata_of = 3%nat
       /\ map event_collection (store_events (events run))
          = [ Some (lit "python_book"); Some (lit "python_book");
              Some (lit "java_book"); Some (lit "java_book");
              Some (lit "javascript_book"); Some (lit "javascript_book") ].
Proof.
  intros run.
  destruct (main_loop_ingests_in_order sample_dir everything_exists
              three_pages halves sample_now counting_get_or_create
              counting_add PDF_COLLECTION_MAP 0%nat)
    as (Hres & metas & Hdesc & Hev).
  - reflexivity.
  - reflexivity.
  - repeat constructor; exists sample_pages;
      (split; [reflexivity|]); intros H; inversion H; discriminate.
  - subst run. split; [exact Hres|]. exists metas.
    split; [symmetry; exact (Forall2_length _ _ _ Hdesc)|].
    reflexivity.
Defined.

Lemma first_ingestion_stores_every_chunk_witness :
  res (sample_process_pdf python_pdf_path (lit "python_book") ∅) = Ok tt.
Proof.
  apply (first_ingestion_stores_every_chunk three_pages halves sample_now
           python_pdf_path (lit "python_book") sample_pages ∅).
  - reflexivity.
  - vm_compute. discriminate.
  - reflexivity.
Defined.

End Witnesses.

(** ** Sample runs *)

Example format_04d_small : format_04d 7 = lit "0007".
Proof. reflexivity. Qed.

Example chunk_id_five_digits :
  Ingest.chunk_id (lit "java_book") (Z.to_nat 12345) = lit "java_book_chunk_12345".
Proof. vm_compute. reflexivity. Qed.

Example clean_text_drops_surrogate :
  Ingest.clean_text (E:=unit) [65; 233; 8364; 55296; 128512; 66]
  = Ok [65; 233; 8364; 128512; 66].
Proof. vm_compute. reflexivity. Qed.

Example second_run_raises :
  Ingest.res
    (Samples.sample_process_pdf Samples.python_pdf_path (lit "python_book")
       (Ingest.final (Samples.sample_process_pdf Samples.python_pdf_path
                        (lit "python_book") ∅)))
  = Raise (Foreign (Ingest.DuplicateIDError (lit "python_book_chunk_0000"))).
Proof. vm_compute. reflexivity. Qed.

Example only_python_is_ingested :
  map Ingest.event_collection
      (Ingest.store_events
         (Ingest.events (Samples.sample_main Samples.only_python ∅)))
  = [Some (lit "python_book"); Some (lit "python_book")].
Proof. vm_compute. reflexivity. Qed.

Example keys_are_plain :
  forallb (forallb is_plain)
          (PromptRenderer.dict_keys PromptRenderer.ANSWER_TECHNIQUES_literal)
  = true.
Proof. reflexivity. Qed.
